(** * The detection-to-notification pipeline of the surveillance platform

    A shallow embedding of [alerts/utils.py] (rule matching, cooldown, alert
    creation, recipient resolution, notification dispatch) and of the two
    human actions of [alerts/views.py] (acknowledge, resolve), followed by the
    properties proved about them.

    Conventions.
    - A Django [JSONField] holds an arbitrary JSON value: type [json].
    - A [datetime] is the number of microseconds since 1970-01-01T00:00 on the
      clock [timezone.now()] reads; a [timedelta] is a number of microseconds.
    - A Python [float] or [int] is the rational number it denotes ([Q]);
      order comparisons of finite Python numbers are exact, so they are the
      comparisons of [Q].
    - A Python [str] is the string of the bytes of its UTF-8 encoding; an
      operation that counts characters counts the bytes that begin one.
    - Code that can raise returns an [outcome]; code that reads the clock or
      the database runs in the monad [M] over the [World]. *)

From Stdlib Require Import ZArith QArith Lia.
From stdpp Require Import base option list sorting gmap strings.

Set Warnings "-register-all".
Open Scope string_scope.
Open Scope Z_scope.

(** ** JSON values and the Python operations the code applies to them *)

Inductive json : Type :=
| JNull
| JBool (b : bool)
| JNum (q : Q)
| JStr (s : string)
| JList (l : list json)
| JDict (d : gmap string json).

(** The exception classes the modelled code can raise. *)
Inductive exn : Type :=
| AttributeError
| TypeError
| KeyError
| ValueError
| JSONDecodeError
| TransportError (msg : string).

Inductive outcome (A : Type) : Type :=
| Ok (a : A)
| Raise (e : exn).
Arguments Ok {A} a.
Arguments Raise {A} e.

Definition obind {A B} (o : outcome A) (f : A → outcome B) : outcome B :=
  match o with
  | Ok a => f a
  | Raise e => Raise e
  end.

(** [bool(v)]: Python truthiness of a decoded JSON value. *)
Definition py_truthy (v : json) : bool :=
  match v with
  | JNull => false
  | JBool b => b
  | JNum q => negb (Qeq_bool q 0)
  | JStr s => negb (String.eqb s "")
  | JList l => match l with [] => false | _ :: _ => true end
  | JDict d => negb (bool_decide (d = ∅))
  end.

(** [v.get(key, default)]: only a dict has [get]. *)
Definition py_get (v : json) (key : string) (dflt : json) : outcome json :=
  match v with
  | JDict d => Ok (default dflt (d !! key))
  | _ => Raise AttributeError
  end.

(** The number a JSON value denotes in an order comparison with an [int] or
    a [float] ([True] is 1, [False] is 0); [None] where Python raises
    [TypeError]. *)
Definition py_number (v : json) : option Q :=
  match v with
  | JNum q => Some q
  | JBool b => Some (if b then 1%Q else 0%Q)
  | _ => None
  end.

(** [x >= v] for a number [x]. *)
Definition py_ge (x : Q) (v : json) : outcome bool :=
  match py_number v with
  | Some q => Ok (Qle_bool q x)
  | None => Raise TypeError
  end.

(** [v <= x] and [x <= v] for an [int] [x]. *)
Definition py_le_int (v : json) (x : Z) : outcome bool :=
  match py_number v with
  | Some q => Ok (Qle_bool q (inject_Z x))
  | None => Raise TypeError
  end.

Definition py_int_le (x : Z) (v : json) : outcome bool :=
  match py_number v with
  | Some q => Ok (Qle_bool (inject_Z x) q)
  | None => Raise TypeError
  end.

(** The left operand of [in]: the code tests a [str] or an [int]. *)
Inductive needle : Type :=
| NStr (s : string)
| NInt (n : Z).

(** [needle == v]. *)
Definition py_eq (x : needle) (v : json) : bool :=
  match x, v with
  | NStr s, JStr t => String.eqb s t
  | NInt n, JNum q => Qeq_bool (inject_Z n) q
  | NInt n, JBool b => Z.eqb n (if b then 1 else 0)
  | _, _ => false
  end.

(** [s in t] on strings: [s] occurs in [t]. *)
Fixpoint is_substring (s t : string) : bool :=
  String.prefix s t ||
  match t with
  | EmptyString => false
  | String _ t' => is_substring s t'
  end.

(** [needle in v]: membership in a list, key membership in a dict, substring
    test in a string; anything else is not iterable. *)
Definition py_in (x : needle) (v : json) : outcome bool :=
  match v with
  | JList l => Ok (existsb (py_eq x) l)
  | JDict d =>
      match x with
      | NStr s => Ok (bool_decide (is_Some (d !! s)))
      | NInt _ => Ok false
      end
  | JStr t =>
      match x with
      | NStr s => Ok (is_substring s t)
      | NInt _ => Raise TypeError
      end
  | JNull | JBool _ | JNum _ => Raise TypeError
  end.

(** In UTF-8 a byte [10xxxxxx] continues the character begun before it; every
    other byte begins a character. *)
Definition utf8_continuation (c : Ascii.ascii) : bool :=
  match c with
  | Ascii.Ascii _ _ _ _ _ _ b6 b7 => b7 && negb b6
  end.

(** [len(s)]: the number of characters of [s]. *)
Fixpoint py_len (s : string) : nat :=
  match s with
  | EmptyString => 0%nat
  | String c s' => if utf8_continuation c then py_len s' else S (py_len s')
  end.

(** [s[:n]]: the first [n] characters of [s], each with all its bytes. *)
Fixpoint py_take (n : nat) (s : string) : string :=
  match s with
  | EmptyString => EmptyString
  | String c s' =>
      if utf8_continuation c then String c (py_take n s')
      else match n with
           | O => EmptyString
           | S n' => String c (py_take n' s')
           end
  end.

(** The items a [for] loop over a JSON value visits: the elements of a list,
    the keys of a dict, the characters of a string. *)
Fixpoint chars (s : string) : list json :=
  match s with
  | EmptyString => []
  | String c s' => JStr (String c EmptyString) :: chars s'
  end.

Definition py_iter (v : json) : outcome (list json) :=
  match v with
  | JList l => Ok l
  | JDict d => Ok ((λ kv, JStr kv.1) <$> map_to_list d)
  | JStr s => Ok (chars s)
  | JNull | JBool _ | JNum _ => Raise TypeError
  end.

(** [any(f(x) for x in l)]: stops at the first true item, and at the first
    exception. *)
Fixpoint py_any (f : json → outcome bool) (l : list json) : outcome bool :=
  match l with
  | [] => Ok false
  | x :: l' =>
      match f x with
      | Ok true => Ok true
      | Ok false => py_any f l'
      | Raise e => Raise e
      end
  end.

(** ** Dates and times *)

Definition datetime := Z.
Definition us_per_minute : Z := 60000000.
Definition us_per_hour : Z := 3600000000.
Definition us_per_day : Z := 86400000000.

(** [timedelta(minutes=m)]. *)
Definition timedelta_minutes (m : Z) : Z := m * us_per_minute.

(** [dt.time()], as microseconds since midnight. *)
Definition time_of (dt : datetime) : Z := dt mod us_per_day.

(** [dt.hour]. *)
Definition hour_of (dt : datetime) : Z := time_of dt / us_per_hour.

(** [dt.weekday()]: 0 is Monday; 1970-01-01 was a Thursday. *)
Definition weekday_of (dt : datetime) : Z := (dt / us_per_day + 3) mod 7.

(** A time of day written [h:m]. *)
Definition hm (h m : Z) : Z := h * us_per_hour + m * us_per_minute.

(** ** The data model ([alerts/models.py], [monitoring/models.py])

    A row of a table is a pair of its primary key and its fields; foreign keys
    are primary keys, except [detection_event], which the code always reaches
    through the alert object and never changes. *)

Record User : Type := {
  username : string;
  email : string;
  (** [None]: the user object has no [profile] attribute (no application of
      the repository defines one); [Some v]: the value of
      [user.profile.phone]. *)
  profile_phone : option json;
}.

Record DetectionEvent : Type := {
  event_id : nat;
  camera_id : Z;
  camera_name : string;
  camera_location : nat;
  zone_id : Z;
  zone_name : string;
  event_type : string;
  severity : string;
  confidence : Q;
  detected_at : datetime;
}.

Record AlertRule : Type := {
  rule_name : string;
  rule_location : nat;
  trigger_type : string;
  trigger_conditions : json;
  rule_is_active : bool;
  rule_priority : nat;
  cooldown_minutes : Z;
  rule_created_at : datetime;
  last_triggered : option datetime;
}.

Record NotificationChannel : Type := {
  channel_name : string;
  channel_type : string;
  configuration : json;
  channel_is_active : bool;
  last_used : option datetime;
}.

Record Alert : Type := {
  detection_event : DetectionEvent;
  alert_rule : nat;
  title : string;
  message : string;
  priority : string;
  status : string;
  created_at : datetime;
  sent_at : option datetime;
  acknowledged_at : option datetime;
  acknowledged_by : option nat;
  resolved_at : option datetime;
  resolved_by : option nat;
  metadata : json;
}.

Record NotificationLog : Type := {
  log_alert : nat;
  log_channel : nat;
  recipient : string;
  log_status : string;
  log_sent_at : option datetime;
  delivered_at : option datetime;
  error_message : string;
  external_id : string;
  retry_count : nat;
  log_metadata : json;
}.

Record AlertRecipient : Type := {
  recipient_user : User;
  recipient_location : nat;
  recipient_channels : list nat;
  recipient_is_active : bool;
  priority_filter : json;
  time_restrictions : json;
}.

(** What a webhook endpoint answers. *)
Record HttpResponse : Type := {
  status_code : Z;
  x_message_id : option string;
  response_text : string;
}.

(** The groups of the channel layer the pipeline publishes to. *)
Inductive topic : Type :=
| AlertsOf (location : nat)
| Dashboard.

(** The two messages [send_realtime_alert] publishes for an alert: [new_alert]
    to the group of the location, with its [sound] and [notification_popup]
    flags, and [dashboard_update] to the dashboard. *)
Inductive Broadcast : Type :=
| NewAlert (location : nat) (alert_pk : nat) (sound popup : bool)
| DashboardUpdate (alert_pk : nat).

(** The database and what the pipeline has published so far. *)
Record World : Type := {
  clock_reads : nat;
  rules : gmap nat AlertRule;
  alerts : list Alert;
  channels : gmap nat NotificationChannel;
  recipients : list AlertRecipient;
  notification_logs : list NotificationLog;
  broadcasts : list Broadcast;
}.

(** The collaborators outside the pipeline: the clock, the storage layer's
    verdict on the insertion of an alert, the text formatting of the Python
    library, the mail, HTTP and channel-layer transports. *)
Record Env : Type := {
  (** the [n]-th reading of [timezone.now()] *)
  clock : nat → datetime;
  (** whether [Alert.objects.create] stores the row (otherwise it raises) *)
  storage_accepts : Alert → bool;
  str_lower : string → string;
  format_percent : Q → string;
  isoformat : datetime → string;
  (** [datetime.time.fromisoformat], as microseconds since midnight; [Raise]
      for a string it rejects, and for one with a UTC offset, which no
      comparison with the naive [now.time()] accepts *)
  time_fromisoformat : string → outcome Z;
  (** [send_mail] to one address; [false]: the transport raises *)
  send_mail : string → Alert → string → bool;
  (** [requests.post(url, json=payload, headers=headers, timeout=30)] *)
  requests_post : json → gmap string json → json → outcome HttpResponse;
  (** [headers.update(v)] for a non-empty list or string [v] *)
  update_from_pairs : gmap string json → json → outcome (gmap string json);
  str_of_exn : exn → string;
  (** [group_send] to a group; [false]: the channel layer raises *)
  group_send : topic → bool;
}.

(** Field updates. *)
Definition set_last_triggered (t : option datetime) (r : AlertRule) : AlertRule :=
  {| rule_name := rule_name r; rule_location := rule_location r;
     trigger_type := trigger_type r; trigger_conditions := trigger_conditions r;
     rule_is_active := rule_is_active r; rule_priority := rule_priority r;
     cooldown_minutes := cooldown_minutes r; rule_created_at := rule_created_at r;
     last_triggered := t |}.

Definition set_last_used (t : option datetime) (c : NotificationChannel) : NotificationChannel :=
  {| channel_name := channel_name c; channel_type := channel_type c;
     configuration := configuration c; channel_is_active := channel_is_active c;
     last_used := t |}.

Definition set_log_outcome (st : string) (sent : option datetime) (err : string)
    (l : NotificationLog) : NotificationLog :=
  {| log_alert := log_alert l; log_channel := log_channel l; recipient := recipient l;
     log_status := st; log_sent_at := sent; delivered_at := delivered_at l;
     error_message := err; external_id := external_id l;
     retry_count := retry_count l; log_metadata := log_metadata l |}.

Definition set_log_response (ext : string) (meta : json) (l : NotificationLog) : NotificationLog :=
  {| log_alert := log_alert l; log_channel := log_channel l; recipient := recipient l;
     log_status := log_status l; log_sent_at := log_sent_at l;
     delivered_at := delivered_at l; error_message := error_message l;
     external_id := ext; retry_count := retry_count l; log_metadata := meta |}.

Definition set_acknowledged (t : datetime) (u : nat) (a : Alert) : Alert :=
  {| detection_event := detection_event a; alert_rule := alert_rule a;
     title := title a; message := message a; priority := priority a;
     status := "acknowledged"; created_at := created_at a; sent_at := sent_at a;
     acknowledged_at := Some t; acknowledged_by := Some u;
     resolved_at := resolved_at a; resolved_by := resolved_by a;
     metadata := metadata a |}.

Definition set_resolved (t : datetime) (u : nat) (meta : json) (a : Alert) : Alert :=
  {| detection_event := detection_event a; alert_rule := alert_rule a;
     title := title a; message := message a; priority := priority a;
     status := "resolved"; created_at := created_at a; sent_at := sent_at a;
     acknowledged_at := acknowledged_at a; acknowledged_by := acknowledged_by a;
     resolved_at := Some t; resolved_by := Some u;
     metadata := meta |}.

Definition with_clock_reads (n : nat) (w : World) : World :=
  {| clock_reads := n; rules := rules w; alerts := alerts w; channels := channels w;
     recipients := recipients w; notification_logs := notification_logs w;
     broadcasts := broadcasts w |}.

Definition with_rules (rs : gmap nat AlertRule) (w : World) : World :=
  {| clock_reads := clock_reads w; rules := rs; alerts := alerts w;
     channels := channels w; recipients := recipients w;
     notification_logs := notification_logs w; broadcasts := broadcasts w |}.

Definition with_alerts (al : list Alert) (w : World) : World :=
  {| clock_reads := clock_reads w; rules := rules w; alerts := al;
     channels := channels w; recipients := recipients w;
     notification_logs := notification_logs w; broadcasts := broadcasts w |}.

Definition with_channels (cs : gmap nat NotificationChannel) (w : World) : World :=
  {| clock_reads := clock_reads w; rules := rules w; alerts := alerts w;
     channels := cs; recipients := recipients w;
     notification_logs := notification_logs w; broadcasts := broadcasts w |}.

Definition with_notification_logs (ls : list NotificationLog) (w : World) : World :=
  {| clock_reads := clock_reads w; rules := rules w; alerts := alerts w;
     channels := channels w; recipients := recipients w;
     notification_logs := ls; broadcasts := broadcasts w |}.

Definition with_broadcasts (bs : list Broadcast) (w : World) : World :=
  {| clock_reads := clock_reads w; rules := rules w; alerts := alerts w;
     channels := channels w; recipients := recipients w;
     notification_logs := notification_logs w; broadcasts := bs |}.

(** ** The monad of the pipeline: state passing over the [World], with
    exceptions that keep the state reached when they are raised. *)

Definition M (A : Type) : Type := World → outcome A * World.

#[global] Instance outcome_ret : MRet outcome := λ A a, Ok a.
#[global] Instance outcome_bind : MBind outcome := λ A B f o, obind o f.

#[global] Instance M_ret : MRet M := λ A a w, (Ok a, w).
#[global] Instance M_bind : MBind M := λ A B f m w,
  match m w with
  | (Ok a, w') => f a w'
  | (Raise e, w') => (Raise e, w')
  end.

(** A pure computation that may raise, run inside the pipeline. *)
Definition lift {A} (o : outcome A) : M A := λ w, (o, w).

Definition modify (f : World → World) : M unit := λ w, (Ok tt, f w).
Definition get_world : M World := λ w, (Ok w, w).

Section Pipeline.

Context (E : Env).

(** [timezone.now()]: each call is the next reading of the clock. *)
Definition timezone_now : M datetime := λ w,
  (Ok (clock E (clock_reads w)), with_clock_reads (S (clock_reads w)) w).

(** ** Rule matching ([should_trigger_alert]) *)

Definition severity_order : list (string * Z) :=
  [("low", 0); ("medium", 1); ("high", 2); ("critical", 3)].

Fixpoint assoc {V} (k : string) (l : list (string * V)) : option V :=
  match l with
  | [] => None
  | (k', v) :: l' => if String.eqb k k' then Some v else assoc k l'
  end.

(** [severity_order.get(s, 0)] for a string, and for a decoded JSON value
    (a list or a dict is not hashable). *)
Definition severity_rank (s : string) : Z := default 0 (assoc s severity_order).

Definition severity_rank_json (v : json) : outcome Z :=
  match v with
  | JStr s => Ok (severity_rank s)
  | JList _ | JDict _ => Raise TypeError
  | JNull | JBool _ | JNum _ => Ok 0
  end.

(** [window['start'] <= current_hour <= window['end']] *)
Definition window_contains (current_hour : Z) (window : json) : outcome bool :=
  match window with
  | JDict d =>
      match d !! "start" with
      | None => Raise KeyError
      | Some s =>
          lower ← py_le_int s current_hour;
          if lower : bool then
            match d !! "end" with
            | None => Raise KeyError
            | Some e => py_int_le current_hour e
            end
          else Ok false
      end
  | _ => Raise TypeError
  end.

(** The cooldown gate at the head of [should_trigger_alert]. *)
Definition in_cooldown (rule : AlertRule) : M bool :=
  match last_triggered rule with
  | Some lt =>
      now ← timezone_now;
      mret (bool_decide (now - lt < timedelta_minutes (cooldown_minutes rule)))
  | None => mret false
  end.

Definition should_trigger_alert (rule : AlertRule) (detection_event : DetectionEvent) : M bool :=
  let conditions := trigger_conditions rule in
  blocked ← in_cooldown rule;
  if blocked : bool then mret false
  else if String.eqb (trigger_type rule) "detection_type" then
    lift (event_types ← py_get conditions "event_types" (JList []);
          py_in (NStr (event_type detection_event)) event_types)
  else if String.eqb (trigger_type rule) "severity_level" then
    lift (required_severity ← py_get conditions "min_severity" (JStr "low");
          required ← severity_rank_json required_severity;
          mret (Z.leb required (severity_rank (severity detection_event))))
  else if String.eqb (trigger_type rule) "confidence_threshold" then
    lift (min_confidence ← py_get conditions "min_confidence" (JNum (1 # 2));
          py_ge (confidence detection_event) min_confidence)
  else if String.eqb (trigger_type rule) "camera" then
    lift (camera_ids ← py_get conditions "camera_ids" (JList []);
          py_in (NInt (camera_id detection_event)) camera_ids)
  else if String.eqb (trigger_type rule) "zone" then
    lift (zone_ids ← py_get conditions "zone_ids" (JList []);
          py_in (NInt (zone_id detection_event)) zone_ids)
  else if String.eqb (trigger_type rule) "time_window" then
    now ← timezone_now;
    lift (time_windows ← py_get conditions "time_windows" (JList []);
          windows ← py_iter time_windows;
          py_any (window_contains (hour_of now)) windows)
  else mret true.

(** ** Alert creation ([create_alert_from_rule]) *)

Definition EVENT_TYPES : list (string * string) :=
  [("intrusion", "Intrusion"); ("theft", "Vol");
   ("suspicious", "Comportement suspect");
   ("abandoned_object", "Objet abandonné"); ("accident", "Accident");
   ("fire", "Incendie"); ("crowd", "Attroupement"); ("violence", "Violence");
   ("vandalism", "Vandalisme"); ("weapon", "Arme détectée")].

Definition get_event_type_display (ev : DetectionEvent) : string :=
  default (event_type ev) (assoc (event_type ev) EVENT_TYPES).

Definition determine_alert_priority (rule : AlertRule) (detection_event : DetectionEvent) : string :=
  if String.eqb (severity detection_event) "critical" then "critical"
  else if String.eqb (severity detection_event) "high" then "high"
  else if String.eqb (severity detection_event) "medium" then "medium"
  else "low".

Definition json_of_Z (n : Z) : json := JNum (inject_Z n).
Definition json_of_nat (n : nat) : json := JNum (inject_Z (Z.of_nat n)).

(** The alert [Alert.objects.create] is asked to store at time [now]. *)
Definition new_alert (rid : nat) (rule : AlertRule) (detection_event : DetectionEvent)
    (now : datetime) : Alert :=
  {| detection_event := detection_event;
     alert_rule := rid;
     title := get_event_type_display detection_event ++ " - " ++ camera_name detection_event;
     message := "Détection " ++ str_lower E (get_event_type_display detection_event)
                ++ " dans la zone " ++ zone_name detection_event
                ++ " avec un niveau de confiance de "
                ++ format_percent E (confidence detection_event);
     priority := determine_alert_priority rule detection_event;
     status := "pending";
     created_at := now;
     sent_at := None;
     acknowledged_at := None; acknowledged_by := None;
     resolved_at := None; resolved_by := None;
     metadata := JDict (list_to_map
       [("camera_id", json_of_Z (camera_id detection_event));
        ("zone_id", json_of_Z (zone_id detection_event));
        ("confidence", JNum (confidence detection_event));
        ("severity", JStr (severity detection_event))]) |}.

(** The primary key the next inserted alert receives. *)
Definition next_alert_pk (w : World) : nat := S (length (alerts w)).

(** [None] is the [except] branch: the storage layer refused the row, nothing
    was stored. The clock is read for [created_at] ([auto_now_add]). *)
Definition create_alert_from_rule (rule : nat * AlertRule) (detection_event : DetectionEvent)
    : M (option (nat * Alert)) :=
  now ← timezone_now;
  let alert := new_alert rule.1 rule.2 detection_event now in
  if storage_accepts E alert then
    w ← get_world;
    modify (with_alerts (alerts w ++ [alert]));;
    mret (Some (next_alert_pk w, alert))
  else mret None.

(** ** Time restrictions ([is_within_time_restrictions]) *)

(** [time.fromisoformat(v) if isinstance(v, str) else v]: [Some t] is a time
    of day, [None] a value of another type, left as it is. *)
Definition as_time (v : json) : outcome (option Z) :=
  match v with
  | JStr s => t ← time_fromisoformat E s; mret (Some t)
  | _ => Ok None
  end.

(** The check once the clock has been read. A truthy bound that is not a
    string is a number, a boolean, a list or a dict: one of the comparisons
    with the other bound or with [current_time] raises [TypeError]. *)
Definition within_restrictions_at (now : datetime) (time_restrictions : json) : outcome bool :=
  let current_time := time_of now in
  let current_weekday := weekday_of now in
  allowed_days ← py_get time_restrictions "allowed_days" JNull;
  day_refused ← (if py_truthy allowed_days
                 then listed ← py_in (NInt current_weekday) allowed_days;
                      mret (negb listed)
                 else Ok false);
  if day_refused : bool then Ok false
  else
    start_time ← py_get time_restrictions "start_time" JNull;
    end_time ← py_get time_restrictions "end_time" JNull;
    if py_truthy start_time && py_truthy end_time then
      start ← as_time start_time;
      end_ ← as_time end_time;
      match start, end_ with
      | Some s, Some e =>
          if Z.leb s e
          then Ok (Z.leb s current_time && Z.leb current_time e)
          else Ok (Z.leb s current_time || Z.leb current_time e)
      | _, _ => Raise TypeError
      end
    else Ok true.

Definition is_within_time_restrictions (time_restrictions : json) : M bool :=
  if negb (py_truthy time_restrictions) then mret true
  else
    now ← timezone_now;
    lift (within_restrictions_at now time_restrictions).

(** ** Channel adapters *)

Definition send_email_notification (alert : Alert) (channel : NotificationChannel)
    (user : User) : bool :=
  send_mail E ("[SURVEILLANCE] " ++ title alert) alert (email user).

Definition send_sms_notification (alert : Alert) (channel : NotificationChannel)
    (user : User) : bool :=
  match py_get (configuration channel) "phone_number"
               (default JNull (profile_phone user)) with
  | Ok phone => py_truthy phone
  | Raise _ => false
  end.

Definition send_push_notification (alert : Alert) (channel : NotificationChannel)
    (user : User) : bool := true.

Definition webhook_payload (alert : nat * Alert) : json :=
  let a := alert.2 in
  JDict (list_to_map
    [("alert_id", json_of_nat alert.1);
     ("title", JStr (title a));
     ("message", JStr (message a));
     ("priority", JStr (priority a));
     ("status", JStr (status a));
     ("created_at", JStr (isoformat E (created_at a)));
     ("detection", JDict (list_to_map
        [("event_type", JStr (event_type (detection_event a)));
         ("camera", JStr (camera_name (detection_event a)));
         ("zone", JStr (zone_name (detection_event a)));
         ("confidence", JNum (confidence (detection_event a)))]))]).

(** [headers = {'Content-Type': 'application/json'}; headers.update(v)] *)
Definition merged_headers (v : json) : outcome (gmap string json) :=
  let headers : gmap string json := {[ "Content-Type" := JStr "application/json" ]} in
  match v with
  | JDict auth_headers => Ok (auth_headers ∪ headers)
  | JNull | JBool _ | JNum _ => Raise TypeError
  | JList [] => Ok headers
  | JStr EmptyString => Ok headers
  | JList _ | JStr _ => update_from_pairs E headers v
  end.

(** The body of the [try] of [send_webhook_notification]: [Ok (None)] is the
    early [return False] for a missing URL, [Ok (Some r)] a response. *)
Definition webhook_exchange (alert : nat * Alert) (channel : NotificationChannel)
    : outcome (option HttpResponse) :=
  let config := configuration channel in
  webhook_url ← py_get config "webhook_url" JNull;
  if negb (py_truthy webhook_url) then Ok None
  else
    auth_headers ← py_get config "headers" (JDict ∅);
    headers ← merged_headers auth_headers;
    response ← requests_post E webhook_url headers (webhook_payload alert);
    mret (Some response).

(** The adapter returns its verdict and the log object as it has changed it. *)
Definition send_webhook_notification (alert : nat * Alert) (channel : NotificationChannel)
    (user : User) (notification_log : NotificationLog) : bool * NotificationLog :=
  match webhook_exchange alert channel with
  | Ok None => (false, notification_log)
  | Ok (Some response) =>
      (bool_decide (status_code response < 400),
       set_log_response (default "" (x_message_id response))
         (JDict (list_to_map
            [("status_code", json_of_Z (status_code response));
             ("response", JStr (py_take 500 (response_text response)))]))
         notification_log)
  | Raise e =>
      (false,
       set_log_outcome (log_status notification_log) (log_sent_at notification_log)
         (str_of_exn E e) notification_log)
  end.

(** ** Dispatch of one notification ([send_notification_via_channel]) *)

Definition pending_log (alert_pk channel_pk : nat) (user : User) : NotificationLog :=
  {| log_alert := alert_pk; log_channel := channel_pk;
     recipient := email user;
     log_status := "pending";
     log_sent_at := None; delivered_at := None;
     error_message := ""; external_id := "";
     retry_count := 0; log_metadata := JDict ∅ |}.

(** The branch on [channel.channel_type]; [success] stays [False] for a type
    without an adapter. *)
Definition send_by_type (alert : nat * Alert) (channel : NotificationChannel) (user : User)
    (notification_log : NotificationLog) : bool * NotificationLog :=
  if String.eqb (channel_type channel) "email" then
    (send_email_notification alert.2 channel user, notification_log)
  else if String.eqb (channel_type channel) "sms" then
    (send_sms_notification alert.2 channel user, notification_log)
  else if String.eqb (channel_type channel) "webhook" then
    send_webhook_notification alert channel user notification_log
  else if String.eqb (channel_type channel) "push" then
    (send_push_notification alert.2 channel user, notification_log)
  else (false, notification_log).

(** The log row is created, the adapter runs, the row is saved with the
    outcome. The rows of [notification_logs] are in order of creation: the
    row created here has index [length (notification_logs w)]. The writes of
    the storage layer to the log and channel tables are taken to succeed, so
    the handler of the enclosing [try] is never entered. *)
Definition send_notification_via_channel (alert : nat * Alert)
    (channel : nat * NotificationChannel) (user : User) : M unit :=
  w ← get_world;
  let log_index := length (notification_logs w) in
  modify (with_notification_logs
            (notification_logs w ++ [pending_log alert.1 channel.1 user]));;
  let sent := send_by_type alert channel.2 user (pending_log alert.1 channel.1 user) in
  notification_log ←
    (if sent.1 then
       sent_at ← timezone_now;
       used_at ← timezone_now;
       modify (λ w, with_channels
                      (<[channel.1 := set_last_used (Some used_at) channel.2]> (channels w)) w);;
       mret (set_log_outcome "sent" (Some sent_at) (error_message sent.2) sent.2)
     else
       mret (set_log_outcome "failed" (log_sent_at sent.2) "Erreur d'envoi" sent.2));
  modify (λ w, with_notification_logs
                 (<[log_index := notification_log]> (notification_logs w)) w).

(** ** Real-time broadcast ([send_realtime_alert]) *)

Definition send_realtime_alert (alert : nat * Alert) : M unit :=
  let location_id := camera_location (detection_event alert.2) in
  let sound := String.eqb (priority alert.2) "high" || String.eqb (priority alert.2) "critical" in
  let popup := String.eqb (priority alert.2) "critical" in
  if group_send E (AlertsOf location_id) then
    modify (λ w, with_broadcasts
                   (broadcasts w ++ [NewAlert location_id alert.1 sound popup]) w);;
    if group_send E Dashboard then
      modify (λ w, with_broadcasts (broadcasts w ++ [DashboardUpdate alert.1]) w)
    else mret tt
  else mret tt.

(** ** Recipient resolution and fan-out ([send_alert_notifications]) *)

Fixpoint for_each {A} (f : A → M unit) (l : list A) : M unit :=
  match l with
  | [] => mret tt
  | x :: l' => f x;; for_each f l'
  end.

(** [not priority_filter or alert.priority in priority_filter] *)
Definition priority_allows (alert : Alert) (recipient : AlertRecipient) : outcome bool :=
  if negb (py_truthy (priority_filter recipient)) then Ok true
  else py_in (NStr (priority alert)) (priority_filter recipient).

(** The test of the first loop for one recipient. *)
Definition keep_recipient (alert : Alert) (recipient : AlertRecipient) : M bool :=
  allowed ← lift (priority_allows alert recipient);
  if allowed : bool then is_within_time_restrictions (time_restrictions recipient)
  else mret false.

Fixpoint filter_recipients (alert : Alert) (rs : list AlertRecipient) : M (list AlertRecipient) :=
  match rs with
  | [] => mret []
  | recipient :: rs' =>
      keep ← keep_recipient alert recipient;
      filtered ← filter_recipients alert rs';
      mret (if keep : bool then recipient :: filtered else filtered)
  end.

(** [AlertRecipient.objects.filter(location=..., is_active=True)] *)
Definition recipients_of (location : nat) (w : World) : list AlertRecipient :=
  List.filter (λ r, Nat.eqb (recipient_location r) location && recipient_is_active r)
              (recipients w).

(** [recipient.channels.filter(is_active=True)] *)
Definition active_channels (w : World) (recipient : AlertRecipient)
    : list (nat * NotificationChannel) :=
  omap (λ pk, c ← channels w !! pk;
               if channel_is_active c then Some (pk, c) else None)
       (recipient_channels recipient).

Definition notify_recipient (alert : nat * Alert) (recipient : AlertRecipient) : M unit :=
  w ← get_world;
  for_each (λ channel, send_notification_via_channel alert channel (recipient_user recipient))
           (active_channels w recipient).

Definition send_alert_notifications (alert : nat * Alert) : M unit :=
  w ← get_world;
  filtered_recipients ←
    filter_recipients alert.2
      (recipients_of (camera_location (detection_event alert.2)) w);
  for_each (notify_recipient alert) filtered_recipients;;
  send_realtime_alert alert.

(** ** Processing of a detection ([process_detection]) *)

(** The [Meta] ordering of [AlertRule]: [priority], then [-created_at]. *)
Definition rule_before (a b : nat * AlertRule) : Prop :=
  (rule_priority a.2 < rule_priority b.2)%nat ∨
  (rule_priority a.2 = rule_priority b.2 ∧ rule_created_at b.2 ≤ rule_created_at a.2).

#[global] Instance rule_before_dec : RelDecision rule_before.
Proof. intros a b. unfold rule_before. apply _. Defined.

(** [AlertRule.objects.filter(location=..., is_active=True)], evaluated once
    when the loop starts: the loop works on this snapshot of the rows. *)
Definition applicable_rules (location : nat) (w : World) : list (nat * AlertRule) :=
  merge_sort rule_before
    (List.filter (λ r, Nat.eqb (rule_location r.2) location && rule_is_active r.2)
                 (map_to_list (rules w))).

(** [rule.save()] writes the fields of the rule object back to its row; the
    write is taken to succeed. *)
Definition save_rule (pk : nat) (rule : AlertRule) : M unit :=
  modify (λ w, with_rules (<[pk := rule]> (rules w)) w).

(** The body of the loop for one rule of the snapshot. *)
Definition process_rule (detection_event : DetectionEvent) (rule : nat * AlertRule)
    : M (option (nat * Alert)) :=
  triggers ← should_trigger_alert rule.2 detection_event;
  if triggers : bool then
    created ← create_alert_from_rule rule detection_event;
    match created with
    | Some alert =>
        send_alert_notifications alert;;
        now ← timezone_now;
        save_rule rule.1 (set_last_triggered (Some now) rule.2);;
        mret (Some alert)
    | None => mret None
    end
  else mret None.

Fixpoint process_rules (detection_event : DetectionEvent) (rs : list (nat * AlertRule))
    : M (list (nat * Alert)) :=
  match rs with
  | [] => mret []
  | rule :: rs' =>
      created ← process_rule detection_event rule;
      alerts_created ← process_rules detection_event rs';
      mret (match created with
            | Some alert => alert :: alerts_created
            | None => alerts_created
            end)
  end.

Definition process_detection (detection_event : DetectionEvent) : M (list (nat * Alert)) :=
  w ← get_world;
  process_rules detection_event (applicable_rules (camera_location detection_event) w).

(** ** The human actions ([alerts/views.py]) *)

Inductive response : Type :=
| Json200 (status : string)
| Json400 (error : string)
| Http404.

(** [get_object_or_404(Alert, id=alert_id)] *)
Definition get_alert (w : World) (alert_id : nat) : option Alert :=
  match alert_id with
  | O => None
  | S i => alerts w !! i
  end.

(** [alert.save()] *)
Definition save_alert (alert_id : nat) (alert : Alert) : M unit :=
  modify (λ w, with_alerts (<[pred alert_id := alert]> (alerts w)) w).

Definition acknowledge_alert (user : nat) (alert_id : nat) : M response :=
  w ← get_world;
  match get_alert w alert_id with
  | None => mret Http404
  | Some alert =>
      if String.eqb (status alert) "pending" || String.eqb (status alert) "sent" then
        now ← timezone_now;
        save_alert alert_id (set_acknowledged now user alert);;
        mret (Json200 "acknowledged")
      else mret (Json400 "Statut invalide")
  end.

(** [alert.metadata = alert.metadata or {}; alert.metadata['resolution_notes'] = notes] *)
Definition with_resolution_notes (notes : json) (meta : json) : outcome json :=
  if negb (py_truthy meta) then Ok (JDict {[ "resolution_notes" := notes ]})
  else match meta with
       | JDict d => Ok (JDict (<[ "resolution_notes" := notes ]> d))
       | _ => Raise TypeError
       end.

(** [body] is [json.loads(request.body)]: [None] when the body is not JSON. *)
Definition resolve_alert (user : nat) (alert_id : nat) (body : option json) : M response :=
  w ← get_world;
  match get_alert w alert_id with
  | None => mret Http404
  | Some alert =>
      match (data ← from_option Ok (Raise JSONDecodeError) body;
             py_get data "notes" (JStr "")) with
      | Raise e => mret (Json400 (str_of_exn E e))
      | Ok notes =>
          now ← timezone_now;
          match (if py_truthy notes then with_resolution_notes notes (metadata alert)
                 else Ok (metadata alert)) with
          | Raise e => mret (Json400 (str_of_exn E e))
          | Ok meta =>
              save_alert alert_id (set_resolved now user meta alert);;
              mret (Json200 "resolved")
          end
      end
  end.

End Pipeline.

(** ** Two workers processing detections at the same time

    The server runs several workers over one database. A worker running
    [process_detection] first evaluates the query, which gives it its own copy
    of the applicable rules, and then runs the body of the loop once per rule
    of that copy. A step of a worker is the evaluation of the query or one
    whole turn of the loop; a schedule says which worker takes each step.
    Taking a whole turn as one step only removes interleavings. *)

Inductive worker : Type :=
| Starting (detection_event : DetectionEvent)
| Looping (detection_event : DetectionEvent) (todo : list (nat * AlertRule))
          (alerts_created : list (nat * Alert))
| Returned (alerts_created : list (nat * Alert))
| Crashed (e : exn).

Definition worker_step (E : Env) (t : worker) (w : World) : worker * World :=
  match t with
  | Starting ev => (Looping ev (applicable_rules (camera_location ev) w) [], w)
  | Looping ev [] acc => (Returned acc, w)
  | Looping ev (rule :: todo) acc =>
      match process_rule E ev rule w with
      | (Ok created, w') => (Looping ev todo (acc ++ option_list created), w')
      | (Raise e, w') => (Crashed e, w')
      end
  | Returned _ | Crashed _ => (t, w)
  end.

(** [false] schedules the first worker, [true] the second. *)
Fixpoint run_workers (E : Env) (schedule : list bool) (a b : worker) (w : World)
    : worker * worker * World :=
  match schedule with
  | [] => (a, b, w)
  | false :: s => let '(a', w') := worker_step E a w in run_workers E s a' b w'
  | true :: s => let '(b', w') := worker_step E b w in run_workers E s a b' w'
  end.

(** The alerts of rule [rid] created since the world [w]. *)
Definition alerts_of_rule_since (rid : nat) (w w' : World) : list Alert :=
  List.filter (λ a, Nat.eqb (alert_rule a) rid) (drop (length (alerts w)) (alerts w')).

(** ** Vocabulary of the properties *)

(** The world after one more reading of the clock. *)
Definition tick (w : World) : World := with_clock_reads (S (clock_reads w)) w.

(** The threshold a [confidence_threshold] rule compares with: the number
    under [min_confidence], 0.5 when the key is absent. *)
Definition min_confidence_of (conditions : json) : option Q :=
  match conditions with
  | JDict d =>
      match d !! "min_confidence" with
      | Some v => py_number v
      | None => Some (1 # 2)
      end
  | _ => None
  end.

(** The six trigger types [should_trigger_alert] knows. *)
Definition known_trigger_types : list string :=
  ["detection_type"; "severity_level"; "confidence_threshold";
   "camera"; "zone"; "time_window"].

(** The weekday allow-list of the restrictions [d] refuses the day of [now]:
    it is present, not empty, and does not list the weekday. *)
Definition day_refused (now : datetime) (d : gmap string json) : Prop :=
  ∃ days, d !! "allowed_days" = Some days ∧ py_truthy days = true ∧
          py_in (NInt (weekday_of now)) days = Ok false.

(** The allow-list lets the day of [now] through: it is absent or empty, or
    lists the weekday. *)
Definition day_allowed (now : datetime) (d : gmap string json) : Prop :=
  match d !! "allowed_days" with
  | None => True
  | Some days =>
      py_truthy days = false ∨ py_in (NInt (weekday_of now)) days = Ok true
  end.

(** The window of the specification: [start <= now <= end] when [start <= end],
    [now >= start or now <= end] when the window wraps midnight. *)
Definition in_window (start end_ now : Z) : bool :=
  if Z.leb start end_
  then Z.leb start now && Z.leb now end_
  else Z.leb start now || Z.leb now end_.

(** The restrictions of the example: from 22:00 to 06:00. *)
Definition night_restrictions : json :=
  JDict {[ "start_time" := JStr "22:00"; "end_time" := JStr "06:00" ]}.


(** The statuses [acknowledge_alert] accepts. *)
Definition acknowledgeable (a : Alert) : bool :=
  String.eqb (status a) "pending" || String.eqb (status a) "sent".


(** The log row [send_notification_via_channel] leaves for a dispatch that
    starts in the world [w]. *)
Definition final_log (E : Env) (alert : nat * Alert) (channel : nat * NotificationChannel)
    (user : User) (w : World) : NotificationLog :=
  let sent := send_by_type E alert channel.2 user (pending_log alert.1 channel.1 user) in
  if sent.1
  then set_log_outcome "sent" (Some (clock E (clock_reads w))) (error_message sent.2) sent.2
  else set_log_outcome "failed" (log_sent_at sent.2) "Erreur d'envoi" sent.2.

(** Whether the adapter of the channel reports a delivery. *)
Definition delivered (E : Env) (alert : nat * Alert) (channel : nat * NotificationChannel)
    (user : User) : bool :=
  (send_by_type E alert channel.2 user (pending_log alert.1 channel.1 user)).1.

(** The world after the dispatch: the clock is read twice and the channel
    saved when the notification was delivered, and the log row is added. *)
Definition after_dispatch (E : Env) (alert : nat * Alert) (channel : nat * NotificationChannel)
    (user : User) (w : World) : World :=
  with_notification_logs (notification_logs w ++ [final_log E alert channel user w])
    (if delivered E alert channel user
     then with_channels
            (<[channel.1 := set_last_used (Some (clock E (S (clock_reads w)))) channel.2]>
               (channels w))
            (tick (tick w))
     else w).

(** A test that returned [True]. *)
Definition holds (o : outcome bool) : bool :=
  match o with
  | Ok b => b
  | Raise _ => false
  end.

(** The priority filter of the recipient is empty or contains the priority
    of the alert. *)
Definition filter_permits (alert : Alert) (r : AlertRecipient) : bool :=
  negb (py_truthy (priority_filter r))
  || holds (py_in (NStr (priority alert)) (priority_filter r)).

(** The time restrictions of the recipient are empty or pass at [now]. *)
Definition restrictions_pass (E : Env) (now : datetime) (r : AlertRecipient) : bool :=
  negb (py_truthy (time_restrictions r))
  || holds (within_restrictions_at E now (time_restrictions r)).

Definition selected (E : Env) (alert : Alert) (now : datetime) (r : AlertRecipient) : bool :=
  filter_permits alert r && restrictions_pass E now r.

(** [resolves E alert lo hi candidates kept]: [kept] lists, in order, the
    candidates that are selected, each one judged at a reading of the clock
    between the readings number [lo] and [hi]. *)
Inductive resolves (E : Env) (alert : Alert) (lo hi : nat)
    : list AlertRecipient → list AlertRecipient → Prop :=
| resolves_nil : resolves E alert lo hi [] []
| resolves_keep r rs kept n :
    (lo ≤ n ≤ hi)%nat → selected E alert (clock E n) r = true →
    resolves E alert lo hi rs kept →
    resolves E alert lo hi (r :: rs) (r :: kept)
| resolves_drop r rs kept n :
    (lo ≤ n ≤ hi)%nat → selected E alert (clock E n) r = false →
    resolves E alert lo hi rs kept →
    resolves E alert lo hi (r :: rs) kept.

(** The channel table holds a row for [pk], and that row is active. *)
Definition channel_is_on (w : World) (pk : nat) : bool :=
  match channels w !! pk with
  | Some c => channel_is_active c
  | None => false
  end.

(** The (user, channel) pairs of the recipients [filtered]: one per active
    channel of each recipient. *)
Definition delivery_targets (w : World) (filtered : list AlertRecipient)
    : list (User * nat) :=
  r ← filtered; (λ c, (recipient_user r, c.1)) <$> active_channels w r.

(** The world [w'] differs from [w] by readings of the clock only. *)
Definition clock_advanced (w w' : World) : Prop :=
  (clock_reads w ≤ clock_reads w')%nat ∧ w' = with_clock_reads (clock_reads w') w.

(** The channels of [w'] are active exactly when those of [w] are. *)
Definition same_activity (w w' : World) : Prop :=
  ∀ pk, channel_is_active <$> (channels w' !! pk) = channel_is_active <$> (channels w !! pk).

(** [w'] is [w] after notifications were dispatched: the log rows [new] were
    added, channels may have been marked as used, clock readings and
    broadcasts may have been made; rules, alerts and recipients are as
    before. *)
Definition notified (w w' : World) (new : list NotificationLog) : Prop :=
  rules w' = rules w ∧ alerts w' = alerts w ∧ recipients w' = recipients w ∧
  (clock_reads w ≤ clock_reads w')%nat ∧ same_activity w w' ∧
  notification_logs w' = (notification_logs w ++ new)%list.

(** The address and the channel a log row names. *)
Definition log_target (l : NotificationLog) : string * nat := (recipient l, log_channel l).

(** The cooldown gate lets the rule through: it never triggered, or some
    reading of the clock is at least the cooldown after [last_triggered]. *)
Definition gate_open (E : Env) (rule : AlertRule) : Prop :=
  match last_triggered rule with
  | Some lt => ∃ m, ¬ (clock E m - lt < timedelta_minutes (cooldown_minutes rule))
  | None => True
  end.

(** In [w'] the rule [k] is the rule of [R0] with [last_triggered] set to a
    reading of the clock made between [w] and [w']. *)
Definition advanced (E : Env) (R0 : gmap nat AlertRule) (w w' : World) (k : nat) : Prop :=
  ∃ r n, (clock_reads w ≤ n < clock_reads w')%nat ∧ R0 !! k = Some r ∧
         rules w' !! k = Some (set_last_triggered (Some (clock E n)) r).

(** C9 as the specification words it: whatever the schedule of two workers
    that process, at the same instant, two detections that both satisfy a
    rule with a cooldown, at most one alert is created for that rule. *)
Definition cooldown_gate_is_atomic : Prop :=
  ∀ (E : Env) (schedule : list bool) (ev1 ev2 : DetectionEvent) (w : World)
    (a b : worker) (w' : World) (rid : nat) (rule : AlertRule),
    rules w !! rid = Some rule →
    0 < cooldown_minutes rule →
    (∀ n m, clock E n = clock E m) →
    (should_trigger_alert E rule ev1 w).1 = Ok true →
    (should_trigger_alert E rule ev2 w).1 = Ok true →
    run_workers E schedule (Starting ev1) (Starting ev2) w = (a, b, w') →
    (length (alerts_of_rule_since rid w w') ≤ 1)%nat.

(** What a worker that ran [process_detection] to its end has become. *)
Definition finished (r : outcome (list (nat * Alert))) : worker :=
  match r with
  | Ok alerts_created => Returned alerts_created
  | Raise e => Crashed e
  end.

(** ** Concrete data for the examples *)

Definition demo_digit (c : Ascii.ascii) : Z := Z.of_nat (Ascii.nat_of_ascii c) - 48.

(** A reader of times written [HH:MM]. *)
Definition demo_fromisoformat (s : string) : outcome Z :=
  match s with
  | String a (String b (String sep (String c (String d EmptyString)))) =>
      let h := demo_digit a * 10 + demo_digit b in
      let m := demo_digit c * 10 + demo_digit d in
      if Ascii.eqb sep (Ascii.ascii_of_nat 58)
         && bool_decide (0 ≤ h < 24) && bool_decide (0 ≤ m < 60)
      then Ok (hm h m) else Raise ValueError
  | _ => Raise ValueError
  end.

(** An environment whose clock always reads [now], whose webhook endpoint
    answers [answer] and whose storage layer takes the alerts [accepts]
    lets through. *)
Definition demo_env (now : datetime) (answer : outcome HttpResponse)
    (accepts : Alert → bool) : Env :=
  {| clock := λ _, now;
     storage_accepts := accepts;
     str_lower := λ s, s;
     format_percent := λ _, "90%";
     isoformat := λ _, "2024-01-01T00:00:00";
     time_fromisoformat := demo_fromisoformat;
     send_mail := λ _ _ _, true;
     requests_post := λ _ _ _, answer;
     update_from_pairs := λ h _, Ok h;
     str_of_exn := λ _, "error";
     group_send := λ _, true |}.

Definition demo_response (code : Z) : outcome HttpResponse :=
  Ok {| status_code := code; x_message_id := Some "m-1"; response_text := "body" |}.

Definition demo_event : DetectionEvent :=
  {| event_id := 1; camera_id := 7; camera_name := "Entrance"; camera_location := 1%nat;
     zone_id := 3; zone_name := "Hall"; event_type := "theft"; severity := "critical";
     confidence := 9 # 10; detected_at := 0 |}.

(** A second theft, seen by another camera of the same location. *)
Definition demo_event_2 : DetectionEvent :=
  {| event_id := 2; camera_id := 8; camera_name := "Exit"; camera_location := 1%nat;
     zone_id := 3; zone_name := "Hall"; event_type := "theft"; severity := "high";
     confidence := 8 # 10; detected_at := 0 |}.

Definition demo_rule (type : string) (conditions : json) (triggered : option datetime)
    : AlertRule :=
  {| rule_name := "rule"; rule_location := 1%nat; trigger_type := type;
     trigger_conditions := conditions; rule_is_active := true;
     rule_priority := 1%nat; cooldown_minutes := 5; rule_created_at := 0;
     last_triggered := triggered |}.

Definition demo_alert (st : string) : Alert :=
  {| detection_event := demo_event; alert_rule := 1%nat;
     title := "Vol - Entrance"; message := "theft"; priority := "high";
     status := st; created_at := 0; sent_at := None;
     acknowledged_at := None; acknowledged_by := None;
     resolved_at := if String.eqb st "resolved" then Some 5 else None;
     resolved_by := if String.eqb st "resolved" then Some 1%nat else None;
     metadata := JDict ∅ |}.

Definition demo_world : World :=
  {| clock_reads := 0; rules := ∅; alerts := []; channels := ∅;
     recipients := []; notification_logs := []; broadcasts := [] |}.

(** A world with one alert, already resolved by user 1 at time 5. *)
Definition demo_resolved_world : World :=
  with_alerts [demo_alert "resolved"] demo_world.

(** A webhook channel and a user for the examples. *)
Definition demo_webhook : nat * NotificationChannel :=
  (5%nat,
   {| channel_name := "hook"; channel_type := "webhook";
      configuration := JDict {[ "webhook_url" := JStr "https://example.org/hook" ]};
      channel_is_active := true; last_used := None |}).

Definition demo_user : User :=
  {| username := "guard"; email := "guard@example.org"; profile_phone := None |}.

Definition demo_chief : User :=
  {| username := "chief"; email := "chief@example.org"; profile_phone := None |}.

Definition demo_recipient (user : User) (filter : json) : AlertRecipient :=
  {| recipient_user := user; recipient_location := 1%nat;
     recipient_channels := [5%nat]; recipient_is_active := true;
     priority_filter := filter; time_restrictions := JDict ∅ |}.

(** Two recipients at location 1, both on the webhook channel: the first
    takes critical alerts only, the second every alert. *)
Definition demo_fanout_world : World :=
  {| clock_reads := 0; rules := ∅; alerts := [];
     channels := {[ demo_webhook.1 := demo_webhook.2 ]};
     recipients := [demo_recipient demo_user (JList [JStr "critical"]);
                    demo_recipient demo_chief (JList [])];
     notification_logs := []; broadcasts := [] |}.

(** The chief subscribed to channel 9 and to the webhook, for every
    priority. *)
Definition demo_chief_subscriptions : AlertRecipient :=
  {| recipient_user := demo_chief; recipient_location := 1%nat;
     recipient_channels := [9%nat; 5%nat]; recipient_is_active := true;
     priority_filter := JList []; time_restrictions := JDict ∅ |}.

(** The fan-out world with the chief's two channels: channel 9 is switched
    off, the webhook is on. *)
Definition demo_switched_off_world : World :=
  {| clock_reads := 0; rules := ∅; alerts := [];
     channels := {[ demo_webhook.1 := demo_webhook.2;
                    9%nat := {| channel_name := "mail"; channel_type := "email";
                                configuration := JDict ∅;
                                channel_is_active := false; last_used := None |} ]};
     recipients := [demo_recipient demo_user (JList [JStr "critical"]);
                    demo_chief_subscriptions];
     notification_logs := []; broadcasts := [] |}.

(** The conditions of a rule for thefts. *)
Definition demo_theft_conditions : json :=
  JDict {[ "event_types" := JList [JStr "theft"] ]}.

(** A world with two theft rules at location 1 and no recipient. *)
Definition demo_two_rules_world : World :=
  with_rules {[ 1%nat := demo_rule "detection_type" demo_theft_conditions None;
                2%nat := demo_rule "detection_type" demo_theft_conditions None ]}
             demo_world.


(** A world with one theft rule, cooldown 5 minutes, never triggered. *)
Definition demo_one_rule_world : World :=
  with_rules {[ 1%nat := demo_rule "detection_type" demo_theft_conditions None ]}
             demo_world.

(** Both workers evaluate their query before either runs its loop. *)
Definition demo_overlap : list bool := [false; true; false; true; false; true].

(** The JSON object of a time window with numeric bounds. *)
Definition window_json (bounds : Q * Q) : json :=
  JDict {[ "start" := JNum bounds.1; "end" := JNum bounds.2 ]}.

(** The hour [h] lies in the window, bounds included. *)
Definition hour_in (h : Z) (bounds : Q * Q) : bool :=
  Qle_bool bounds.1 (inject_Z h) && Qle_bool (inject_Z h) bounds.2.

(** The rule of the demonstration data named 'Vol Détecté'. *)
Definition demo_vol_rule : AlertRule :=
  {| rule_name := "Vol Détecté"; rule_location := 1%nat;
     trigger_type := "detection_type";
     trigger_conditions :=
       JDict {[ "event_types" := JList [JStr "theft"]; "min_confidence" := JNum (7 # 10) ]};
     rule_is_active := true; rule_priority := 1%nat; cooldown_minutes := 2;
     rule_created_at := 0; last_triggered := None |}.

(** The rule of the demonstration data named 'Intrusion Nocturne'. *)
Definition demo_night_rule : AlertRule :=
  {| rule_name := "Intrusion Nocturne"; rule_location := 1%nat;
     trigger_type := "time_window";
     trigger_conditions :=
       JDict {[ "event_types" := JList [JStr "intrusion"; JStr "suspicious"];
                "time_windows" := JList [window_json (20%Q, 7%Q)] ]};
     rule_is_active := true; rule_priority := 1%nat; cooldown_minutes := 5;
     rule_created_at := 0; last_triggered := None |}.

(** The rule of the demonstration data named 'Incident Sécurité'. *)
Definition demo_incident_rule : AlertRule :=
  {| rule_name := "Incident Sécurité"; rule_location := 1%nat;
     trigger_type := "severity_level";
     trigger_conditions := JDict {[ "min_severity" := JStr "high" ]};
     rule_is_active := true; rule_priority := 2%nat; cooldown_minutes := 10;
     rule_created_at := 0; last_triggered := None |}.

(** A theft the detector is barely confident of. *)
Definition demo_doubtful_theft : DetectionEvent :=
  {| event_id := 3; camera_id := 7; camera_name := "Entrance"; camera_location := 1%nat;
     zone_id := 3; zone_name := "Hall"; event_type := "theft"; severity := "low";
     confidence := 1 # 10; detected_at := 0 |}.

(** A camera rule whose conditions are a list, not an object, beside a well
    formed theft rule. *)
Definition demo_malformed_world : World :=
  with_rules {[ 1%nat := demo_rule "camera" (JList [JNum 7]) None;
                2%nat := demo_rule "detection_type" demo_theft_conditions None ]}
             demo_world.

(** An active rule of location 2 and, at location 1, a rule that is switched
    off and whose conditions are not an object. *)
Definition demo_mixed_world : World :=
  with_rules {[ 1%nat := {| rule_name := "elsewhere"; rule_location := 2%nat;
                            trigger_type := "detection_type";
                            trigger_conditions := demo_theft_conditions;
                            rule_is_active := true; rule_priority := 1%nat;
                            cooldown_minutes := 5; rule_created_at := 0;
                            last_triggered := None |};
                2%nat := {| rule_name := "off"; rule_location := 1%nat;
                            trigger_type := "camera";
                            trigger_conditions := JList [JNum 7];
                            rule_is_active := false; rule_priority := 1%nat;
                            cooldown_minutes := 5; rule_created_at := 0;
                            last_triggered := None |} ]}
             demo_world.

(** Two rules of location 1 told apart by their priority: the urgent one has
    the larger key. *)
Definition demo_priority_world : World :=
  with_rules {[ 1%nat := demo_incident_rule; 2%nat := demo_vol_rule ]} demo_world.

(** Location 1 with a well formed recipient followed by one whose priority
    filter is a number. *)
Definition demo_faulty_world : World :=
  {| clock_reads := 0;
     rules := {[ 1%nat := demo_rule "detection_type" demo_theft_conditions None ]};
     alerts := [];
     channels := {[ demo_webhook.1 := demo_webhook.2 ]};
     recipients := [demo_recipient demo_user (JList []);
                    demo_recipient demo_chief (JNum 1)];
     notification_logs := []; broadcasts := [] |}.

(** Channels of the other types of [CHANNEL_TYPES]. *)
Definition demo_slack : nat * NotificationChannel :=
  (6%nat,
   {| channel_name := "slack"; channel_type := "slack";
      configuration := JDict {[ "webhook_url" := JStr "https://example.org/slack" ]};
      channel_is_active := true; last_used := None |}).

(** An SMS channel whose configured number is the empty string. *)
Definition demo_sms : nat * NotificationChannel :=
  (7%nat,
   {| channel_name := "sms"; channel_type := "sms";
      configuration := JDict {[ "phone_number" := JStr "" ]};
      channel_is_active := true; last_used := None |}).

(** A user whose profile holds a telephone number. *)
Definition demo_user_with_phone : User :=
  {| username := "guard"; email := "guard@example.org";
     profile_phone := Some (JStr "+33123456789") |}.

(** A webhook channel without a URL. *)
Definition demo_webhook_no_url : nat * NotificationChannel :=
  (8%nat,
   {| channel_name := "hook"; channel_type := "webhook";
      configuration := JDict {[ "headers" := JDict ∅ ]};
      channel_is_active := true; last_used := None |}).

(** [n] copies of [s]. *)
Fixpoint demo_repeat (n : nat) (s : string) : string :=
  match n with
  | O => EmptyString
  | S n' => String.append s (demo_repeat n' s)
  end.

(** An endpoint out of service, answering with 300 accented letters, of two
    bytes each, and no message id. *)
Definition demo_accents_response : outcome HttpResponse :=
  Ok {| status_code := 503; x_message_id := None; response_text := demo_repeat 300 "é" |}.

(** The row of a dispatch that failed without an answer from outside. *)
Definition plain_failed_log (alert_pk channel_pk : nat) (user : User) : NotificationLog :=
  set_log_outcome "failed" None "Erreur d'envoi" (pending_log alert_pk channel_pk user).

(** [w'] is [w] but for the clock and for the alert [alert_id]: the alert
    table has the same length and the same alerts under every other id, and
    the other tables are those of [w]. *)
Definition touches_only_alert (alert_id : nat) (w w' : World) : Prop :=
  length (alerts w') = length (alerts w) ∧
  (∀ other, other ≠ alert_id → get_alert w' other = get_alert w other) ∧
  rules w' = rules w ∧ channels w' = channels w ∧ recipients w' = recipients w ∧
  notification_logs w' = notification_logs w ∧ broadcasts w' = broadcasts w.

(** The alert of the examples as the pipeline stores it, with its metadata. *)
Definition demo_stored_alert : Alert :=
  new_alert (demo_env 7 (demo_response 200) (λ _, true)) 1
    (demo_rule "detection_type" demo_theft_conditions None) demo_event 7.

Definition demo_stored_world : World := with_alerts [demo_stored_alert] demo_world.

(** What [toggle_rule] answers: the new [is_active] and the word shown to the
    user, or 404 when no rule has the id. *)
Inductive toggle_response : Type :=
| Toggled (is_active : bool) (status_text : string)
| RuleNotFound.

Definition set_rule_is_active (b : bool) (r : AlertRule) : AlertRule :=
  {| rule_name := rule_name r; rule_location := rule_location r;
     trigger_type := trigger_type r; trigger_conditions := trigger_conditions r;
     rule_is_active := b; rule_priority := rule_priority r;
     cooldown_minutes := cooldown_minutes r; rule_created_at := rule_created_at r;
     last_triggered := last_triggered r |}.

(** [rule = get_object_or_404(AlertRule, id=rule_id);
     rule.is_active = not rule.is_active; rule.save()]. As for the actions on
    an alert, the message flashed to the user's session is left out. *)
Definition toggle_rule (rule_id : nat) : M toggle_response :=
  w ← get_world;
  match rules w !! rule_id with
  | None => mret RuleNotFound
  | Some rule =>
      let rule := set_rule_is_active (negb (rule_is_active rule)) rule in
      save_rule rule_id rule;;
      mret (Toggled (rule_is_active rule)
                    (if rule_is_active rule then "activée" else "désactivée"))
  end.

(** * Properties *)

Open Scope list_scope.

(** ** Stepping through the monad *)

(** Runs the state-passing code of the goal on its world. *)
Ltac run_m :=
  repeat (unfold mbind, M_bind, mret, M_ret, modify, get_world, timezone_now, lift;
          cbn).

Lemma bind_ok {A B} (m : M A) (f : A → M B) w a w' :
  m w = (Ok a, w') → (m ≫= f) w = f a w'.
Proof. intros H. unfold mbind, M_bind. by rewrite H. Qed.

Lemma bind_raise {A B} (m : M A) (f : A → M B) w e w' :
  m w = (Raise e, w') → (m ≫= f) w = (Raise e, w').
Proof. intros H. unfold mbind, M_bind. by rewrite H. Qed.

Lemma bind_inv {A B} (m : M A) (f : A → M B) w o w' :
  (m ≫= f) w = (o, w') →
  (∃ a w1, m w = (Ok a, w1) ∧ f a w1 = (o, w')) ∨
  (∃ e, m w = (Raise e, w') ∧ o = Raise e).
Proof.
  unfold mbind, M_bind. destruct (m w) as [[a|e] w1]; intros H.
  - left. eauto.
  - right. exists e. by inversion H.
Qed.

Lemma timezone_now_eq E w : timezone_now E w = (Ok (clock E (clock_reads w)), tick w).
Proof. reflexivity. Qed.

(** The cooldown gate never raises; it reads the clock when the rule has
    triggered before, and only then. *)
Lemma in_cooldown_eq E rule w :
  in_cooldown E rule w =
  match last_triggered rule with
  | Some lt =>
      (Ok (bool_decide (clock E (clock_reads w) - lt
                        < timedelta_minutes (cooldown_minutes rule))), tick w)
  | None => (Ok false, w)
  end.
Proof. unfold in_cooldown. by destruct (last_triggered rule). Qed.

(** ** Rule matching *)



(** C6. For a rule of type [confidence_threshold] that the cooldown does not
    block, the check returns whether [event.confidence >= min_confidence],
    the threshold being 0.5 when the conditions do not give one; a confidence
    equal to the threshold matches. *)
Theorem confidence_threshold_matches E rule detection_event w w1 threshold :
  trigger_type rule = "confidence_threshold" →
  in_cooldown E rule w = (Ok false, w1) →
  min_confidence_of (trigger_conditions rule) = Some threshold →
  ∃ b, should_trigger_alert E rule detection_event w = (Ok b, w1) ∧
       (b = true ↔ (threshold <= confidence detection_event)%Q) ∧
       ((confidence detection_event == threshold)%Q → b = true).
Proof.
  intros Hty Hgate Hthr. unfold should_trigger_alert.
  rewrite (bind_ok _ _ _ _ _ Hgate), Hty. cbn [String.eqb Ascii.eqb Bool.eqb].
  simpl.
  unfold min_confidence_of in Hthr.
  destruct (trigger_conditions rule) as [| | | |?|d]; try discriminate.
  exists (Qle_bool threshold (confidence detection_event)).
  split; [|split].
  - unfold lift, py_get, py_ge. cbn.
    destruct (d !! "min_confidence") as [v|]; cbn.
    + by rewrite Hthr.
    + by inversion Hthr.
  - apply Qle_bool_iff.
  - intros Heq. apply Qle_bool_iff. rewrite Heq. apply Qle_refl.
Qed.

Lemma confidence_threshold_matches_witness :
  ∃ b, should_trigger_alert (demo_env 0 (demo_response 200) (λ _, true))
         (demo_rule "confidence_threshold" (JDict ∅) None) demo_event demo_world
       = (Ok b, demo_world) ∧
       (b = true ↔ (1 # 2 <= confidence demo_event)%Q) ∧
       ((confidence demo_event == 1 # 2)%Q → b = true).
Proof.
  apply confidence_threshold_matches; reflexivity.
Defined.

(** C7. A rule whose [trigger_type] is none of the six known types and that
    the cooldown does not block matches every detection event. *)
Theorem unknown_trigger_type_matches E rule detection_event w w1 :
  trigger_type rule ∉ known_trigger_types →
  in_cooldown E rule w = (Ok false, w1) →
  should_trigger_alert E rule detection_event w = (Ok true, w1).
Proof.
  intros Hty Hgate. unfold should_trigger_alert.
  rewrite (bind_ok _ _ _ _ _ Hgate).
  unfold known_trigger_types in Hty.
  repeat match goal with
  | |- context [String.eqb (trigger_type rule) ?s] =>
      destruct (String.eqb_spec (trigger_type rule) s) as [Heq|_];
      [exfalso; apply Hty; rewrite Heq; set_solver|]
  end.
  reflexivity.
Qed.

Lemma unknown_trigger_type_matches_witness :
  should_trigger_alert (demo_env 0 (demo_response 200) (λ _, true))
    (demo_rule "no_such_type" JNull None) demo_event demo_world
  = (Ok true, demo_world).
Proof.
  apply unknown_trigger_type_matches; [|reflexivity].
  unfold known_trigger_types. cbn. intros H.
  repeat (apply elem_of_cons in H as [H|H]; [discriminate H|]).
  by apply elem_of_nil in H.
Defined.

(** ** Time restrictions *)

Lemma within_day_refused E now d :
  day_refused now d → within_restrictions_at E now (JDict d) = Ok false.
Proof.
  intros (days & Hd & Ht & Hin). unfold within_restrictions_at. cbn.
  rewrite Hd. cbn. rewrite Ht, Hin. reflexivity.
Qed.

Lemma within_window E now d s e ts te :
  day_allowed now d →
  d !! "start_time" = Some (JStr s) → s ≠ "" →
  d !! "end_time" = Some (JStr e) → e ≠ "" →
  time_fromisoformat E s = Ok ts → time_fromisoformat E e = Ok te →
  within_restrictions_at E now (JDict d) = Ok (in_window ts te (time_of now)).
Proof.
  intros Hday Hs Hsne He Hene Hts Hte.
  assert (Hrest :
    (start_time ← py_get (JDict d) "start_time" JNull;
     end_time ← py_get (JDict d) "end_time" JNull;
     if py_truthy start_time && py_truthy end_time then
       start ← as_time E start_time;
       end_ ← as_time E end_time;
       match start, end_ with
       | Some s, Some e =>
           if Z.leb s e
           then Ok (Z.leb s (time_of now) && Z.leb (time_of now) e)
           else Ok (Z.leb s (time_of now) || Z.leb (time_of now) e)
       | _, _ => Raise TypeError
       end
     else Ok true) = Ok (in_window ts te (time_of now))).
  { cbn. rewrite Hs, He. cbn.
    destruct (String.eqb_spec s "") as [|_]; [done|].
    destruct (String.eqb_spec e "") as [|_]; [done|].
    cbn. rewrite Hts, Hte. cbn. unfold in_window. by destruct (ts <=? te). }
  unfold within_restrictions_at, day_allowed in *. cbn in *.
  destruct (d !! "allowed_days") as [days|]; cbn.
  - destruct Hday as [Hf|Hin].
    + rewrite Hf. cbn. exact Hrest.
    + destruct (py_truthy days); cbn; [rewrite Hin; cbn|]; exact Hrest.
  - exact Hrest.
Qed.

(** C5. [is_within_time_restrictions] returns true for empty or absent
    restrictions. Otherwise the weekday allow-list is checked first and on
    its own: a day it refuses gives false whatever the times are. On a day it
    lets through, when [start_time] and [end_time] are both set, the result is
    [start <= now <= end] if [start <= end] and [now >= start or now <= end] if
    [start > end]. With start 22:00 and end 06:00 the check passes at 23:00
    and at 02:00 and fails at 12:00. [now] is the reading of the clock the
    check makes. *)
Theorem time_restrictions_check E w time_restrictions :
  let now := clock E (clock_reads w) in
  (py_truthy time_restrictions = false →
   is_within_time_restrictions E time_restrictions w = (Ok true, w)) ∧
  (∀ d, time_restrictions = JDict d → d ≠ ∅ →
     (day_refused now d →
      is_within_time_restrictions E time_restrictions w = (Ok false, tick w)) ∧
     (∀ s e ts te,
        day_allowed now d →
        d !! "start_time" = Some (JStr s) → s ≠ "" →
        d !! "end_time" = Some (JStr e) → e ≠ "" →
        time_fromisoformat E s = Ok ts → time_fromisoformat E e = Ok te →
        is_within_time_restrictions E time_restrictions w
        = (Ok (in_window ts te (time_of now)), tick w))) ∧
  (time_restrictions = night_restrictions →
   time_fromisoformat E "22:00" = Ok (hm 22 0) →
   time_fromisoformat E "06:00" = Ok (hm 6 0) →
   (time_of now = hm 23 0 →
    is_within_time_restrictions E time_restrictions w = (Ok true, tick w)) ∧
   (time_of now = hm 2 0 →
    is_within_time_restrictions E time_restrictions w = (Ok true, tick w)) ∧
   (time_of now = hm 12 0 →
    is_within_time_restrictions E time_restrictions w = (Ok false, tick w))).
Proof.
  intros now.
  assert (Hgen : ∀ d, time_restrictions = JDict d → d ≠ ∅ →
            is_within_time_restrictions E time_restrictions w
            = (within_restrictions_at E now (JDict d), tick w)).
  { intros d -> Hne. unfold is_within_time_restrictions. cbn.
    rewrite bool_decide_eq_false_2 by done. reflexivity. }
  split; [|split].
  - intros Hf. unfold is_within_time_restrictions. by rewrite Hf.
  - intros d Hd Hne. split.
    + intros Href. rewrite (Hgen d Hd Hne). by rewrite (within_day_refused E now d Href).
    + intros s e ts te Hday Hs Hsne He Hene Hts Hte.
      rewrite (Hgen d Hd Hne).
      by rewrite (within_window E now d s e ts te).
  - intros Htr H22 H06.
    assert (Hw : is_within_time_restrictions E time_restrictions w
                 = (Ok (in_window (hm 22 0) (hm 6 0) (time_of now)), tick w)).
    { unfold night_restrictions in Htr. rewrite (Hgen _ Htr).
      - rewrite (within_window E now _ "22:00" "06:00" (hm 22 0) (hm 6 0)); try done.
      - apply insert_non_empty. }
    rewrite Hw. repeat split; intros ->; reflexivity.
Qed.

Lemma time_restrictions_check_witness :
  is_within_time_restrictions (demo_env (hm 23 0) (demo_response 200) (λ _, true))
    night_restrictions demo_world = (Ok true, tick demo_world) ∧
  is_within_time_restrictions (demo_env (hm 2 0) (demo_response 200) (λ _, true))
    night_restrictions demo_world = (Ok true, tick demo_world) ∧
  is_within_time_restrictions (demo_env (hm 12 0) (demo_response 200) (λ _, true))
    night_restrictions demo_world = (Ok false, tick demo_world).
Proof.
  pose proof (λ t, time_restrictions_check
                     (demo_env t (demo_response 200) (λ _, true))
                     demo_world night_restrictions) as H.
  split; [|split].
  - destruct (H (hm 23 0)) as (_ & _ & Hex).
    destruct (Hex eq_refl eq_refl eq_refl) as (H23 & _ & _).
    apply H23. reflexivity.
  - destruct (H (hm 2 0)) as (_ & _ & Hex).
    destruct (Hex eq_refl eq_refl eq_refl) as (_ & H02 & _).
    apply H02. reflexivity.
  - destruct (H (hm 12 0)) as (_ & _ & Hex).
    destruct (Hex eq_refl eq_refl eq_refl) as (_ & _ & H12).
    apply H12. reflexivity.
Defined.

(** ** Acknowledging and resolving an alert *)

Lemma bind_get_world {B} (f : World → M B) w : (get_world ≫= f) w = f w w.
Proof. reflexivity. Qed.

Lemma get_alert_saved w0 w alert_id alert alert' :
  get_alert w alert_id = Some alert →
  get_alert (with_alerts (<[pred alert_id := alert']> (alerts w)) w0) alert_id
  = Some alert'.
Proof.
  destruct alert_id as [|i]; [done|]. cbn. intros H.
  apply list_lookup_insert_eq. by eapply lookup_lt_Some.
Qed.

Lemma acknowledge_alert_eq E user alert_id w alert :
  get_alert w alert_id = Some alert →
  acknowledge_alert E user alert_id w =
  if acknowledgeable alert
  then (Ok (Json200 "acknowledged"),
        with_alerts (<[pred alert_id :=
                        set_acknowledged (clock E (clock_reads w)) user alert]> (alerts w))
                    (tick w))
  else (Ok (Json400 "Statut invalide"), w).
Proof.
  intros H. unfold acknowledge_alert, acknowledgeable.
  rewrite bind_get_world, H.
  by destruct (String.eqb (status alert) "pending" || String.eqb (status alert) "sent").
Qed.





(** The run behind [resolve_after_resolve_overwrites]: the request is
    answered with success, and the alert names its second resolver. *)
Example resolve_twice :
  let run := resolve_alert (demo_env 9 (demo_response 200) (λ _, true)) 2 1
               (Some (JDict ∅)) demo_resolved_world in
  run.1 = Ok (Json200 "resolved") ∧
  (λ a, (status a, resolved_at a, resolved_by a)) <$> alerts demo_resolved_world
  = [("resolved", Some 5, Some 1%nat)] ∧
  (λ a, (status a, resolved_at a, resolved_by a)) <$> alerts run.2
  = [("resolved", Some 9, Some 2%nat)].
Proof. by vm_compute. Qed.

(** ** Dispatch of one notification *)

Lemma insert_snoc {A} (l : list A) (x y : A) :
  (<[length l := y]> (l ++ [x]) = l ++ [y])%list.
Proof.
  replace (length l) with (length l + 0)%nat by lia. by rewrite insert_app_r.
Qed.

Lemma send_notification_via_channel_eq E alert channel user w :
  send_notification_via_channel E alert channel user w
  = (Ok tt, after_dispatch E alert channel user w).
Proof.
  unfold send_notification_via_channel, after_dispatch, final_log, delivered.
  rewrite bind_get_world.
  destruct (send_by_type E alert channel.2 user (pending_log alert.1 channel.1 user))
    as [[] log]; run_m; by rewrite insert_snoc.
Qed.

(** The adapters change only the response fields and the error message of
    the log object they are given. *)
Lemma send_by_type_keeps E alert channel user log :
  let log' := (send_by_type E alert channel user log).2 in
  recipient log' = recipient log ∧ log_alert log' = log_alert log ∧
  log_channel log' = log_channel log ∧ retry_count log' = retry_count log ∧
  log_sent_at log' = log_sent_at log.
Proof.
  unfold send_by_type, send_webhook_notification.
  repeat match goal with
  | |- context [String.eqb (channel_type channel) ?s] =>
      destruct (String.eqb (channel_type channel) s)
  end; try done.
  by destruct (webhook_exchange E alert channel) as [[r|]|e].
Qed.

(** With a URL and no custom headers in the configuration, the exchange is
    the POST of the payload with the JSON content type. *)
Lemma webhook_exchange_plain E alert channel d url :
  configuration channel = JDict d →
  d !! "webhook_url" = Some url → py_truthy url = true →
  d !! "headers" = None →
  webhook_exchange E alert channel
  = (response ← requests_post E url {[ "Content-Type" := JStr "application/json" ]}
                  (webhook_payload E alert);
     mret (Some response)).
Proof.
  intros Hc Hurl Htruthy Hh. unfold webhook_exchange. rewrite Hc. cbn.
  rewrite Hurl, Hh. cbn. rewrite Htruthy. cbn.
  by rewrite (left_id_L ∅ (∪)).
Qed.

Lemma send_by_type_webhook E alert channel user log :
  channel_type channel = "webhook" →
  send_by_type E alert channel user log = send_webhook_notification E alert channel user log.
Proof. intros H. unfold send_by_type. by rewrite H. Qed.

Lemma webhook_exchange_posts E alert channel d url headers :
  configuration channel = JDict d →
  d !! "webhook_url" = Some url → py_truthy url = true →
  merged_headers E (default (JDict ∅) (d !! "headers")) = Ok headers →
  webhook_exchange E alert channel
  = (response ← requests_post E url headers (webhook_payload E alert);
     mret (Some response)).
Proof.
  intros Hc Hurl Htruthy Hh. unfold webhook_exchange. rewrite Hc. cbn.
  rewrite Hurl. cbn. rewrite Htruthy. cbn. by rewrite Hh.
Qed.




(** The endpoint answers 200: the row is [sent], with [sent_at] set. *)
Example webhook_dispatch_200 :
  ∃ w', send_notification_via_channel (demo_env 7 (demo_response 200) (λ _, true))
          (1%nat, demo_alert "pending") demo_webhook demo_user demo_world = (Ok tt, w') ∧
        (log_status <$> notification_logs w') = ["sent"] ∧
        (log_sent_at <$> notification_logs w') = [Some 7] ∧
        (last_used <$> channels w' !! 5%nat) = Some (Some 7).
Proof.
  eexists. split; [apply send_notification_via_channel_eq|]. by vm_compute.
Qed.

(** C10. Whatever the type of the channel, the log row of a dispatch names
    the user's email address as its recipient. *)
Theorem log_recipient_is_email E alert channel user w :
  ∃ log w',
    send_notification_via_channel E alert channel user w = (Ok tt, w') ∧
    notification_logs w' = (notification_logs w ++ [log])%list ∧
    log_channel log = channel.1 ∧
    recipient log = email user.
Proof.
  exists (final_log E alert channel user w), (after_dispatch E alert channel user w).
  split; [apply send_notification_via_channel_eq|]. split; [reflexivity|].
  pose proof (send_by_type_keeps E alert channel.2 user
                (pending_log alert.1 channel.1 user)) as (Hrec & _ & Hch & _).
  unfold final_log.
  by destruct (send_by_type E alert channel.2 user (pending_log alert.1 channel.1 user)).1.
Qed.

(** ** Recipient resolution *)

Lemma clock_advanced_refl w : clock_advanced w w.
Proof. split; [done|]. by destruct w. Qed.

Lemma clock_advanced_trans w1 w2 w3 :
  clock_advanced w1 w2 → clock_advanced w2 w3 → clock_advanced w1 w3.
Proof.
  intros [H1 E1] [H2 E2]. split; [lia|].
  rewrite E2, E1. by destruct w1.
Qed.

Lemma clock_advanced_tick w : clock_advanced w (tick w).
Proof. split; cbn; [lia|]. by destruct w. Qed.

Lemma keep_recipient_eq E alert r w :
  keep_recipient E alert r w =
  match priority_allows alert r with
  | Raise e => (Raise e, w)
  | Ok false => (Ok false, w)
  | Ok true =>
      if negb (py_truthy (time_restrictions r)) then (Ok true, w)
      else (within_restrictions_at E (clock E (clock_reads w)) (time_restrictions r),
            tick w)
  end.
Proof.
  unfold keep_recipient, is_within_time_restrictions.
  destruct (priority_allows alert r) as [[]|e]; run_m; try done.
  by destruct (py_truthy (time_restrictions r)).
Qed.

(** The test of one recipient: what it returns when it does not raise, and
    the reading of the clock it judges the recipient at. *)
Lemma keep_recipient_selected E alert r w keep w' :
  keep_recipient E alert r w = (Ok keep, w') →
  clock_advanced w w' ∧ (clock_reads w' ≤ S (clock_reads w))%nat ∧
  selected E alert (clock E (clock_reads w)) r = keep.
Proof.
  rewrite keep_recipient_eq. unfold selected, filter_permits, restrictions_pass, priority_allows.
  destruct (py_truthy (priority_filter r)); cbn.
  - destruct (py_in (NStr (priority alert)) (priority_filter r)) as [[]|e]; cbn.
    + destruct (py_truthy (time_restrictions r)); cbn.
      * intros [= Hw <-]. rewrite Hw. cbn. split; [apply clock_advanced_tick|]. split; [lia|done].
      * intros [= <- <-]. split; [apply clock_advanced_refl|]. split; [lia|done].
    + intros [= <- <-]. split; [apply clock_advanced_refl|]. split; [lia|done].
    + discriminate.
  - destruct (py_truthy (time_restrictions r)); cbn.
    + intros [= Hw <-]. rewrite Hw. cbn. split; [apply clock_advanced_tick|]. split; [lia|done].
    + intros [= <- <-]. split; [apply clock_advanced_refl|]. split; [lia|done].
Qed.

Lemma keep_recipient_world E alert r w o w' :
  keep_recipient E alert r w = (o, w') → clock_advanced w w'.
Proof.
  rewrite keep_recipient_eq.
  destruct (priority_allows alert r) as [[]|e].
  - destruct (negb (py_truthy (time_restrictions r))); intros [= <- <-];
      [apply clock_advanced_refl | apply clock_advanced_tick].
  - intros [= <- <-]. apply clock_advanced_refl.
  - intros [= <- <-]. apply clock_advanced_refl.
Qed.

Lemma resolves_weaken E alert lo hi lo' hi' rs kept :
  (lo' ≤ lo)%nat → (hi ≤ hi')%nat →
  resolves E alert lo hi rs kept → resolves E alert lo' hi' rs kept.
Proof.
  intros Hlo Hhi. induction 1 as [|r rs kept n Hn Hsel _ IH|r rs kept n Hn Hsel _ IH].
  - constructor.
  - apply resolves_keep with n; [lia|done|done].
  - apply resolves_drop with n; [lia|done|done].
Qed.

Lemma filter_recipients_world E alert rs w o w' :
  filter_recipients E alert rs w = (o, w') → clock_advanced w w'.
Proof.
  revert w o w'. induction rs as [|r rs IH]; intros w o w'; cbn.
  - intros [= <- <-]. apply clock_advanced_refl.
  - intros H. apply bind_inv in H as [(keep & w1 & Hk & H)|(e & Hk & _)].
    + apply keep_recipient_world in Hk.
      apply bind_inv in H as [(rest & w2 & Hr & H)|(e & Hr & _)].
      * inversion H; subst. eauto using clock_advanced_trans.
      * eauto using clock_advanced_trans.
    + by apply keep_recipient_world in Hk.
Qed.

Lemma filter_recipients_resolves E alert rs w kept w' :
  filter_recipients E alert rs w = (Ok kept, w') →
  resolves E alert (clock_reads w) (clock_reads w') rs kept.
Proof.
  revert w kept w'. induction rs as [|r rs IH]; intros w kept w'; cbn.
  - intros [= <- <-]. constructor.
  - intros H. apply bind_inv in H as [(keep & w1 & Hk & H)|(e & _ & ?)]; [|done].
    apply bind_inv in H as [(rest & w2 & Hr & H)|(e & _ & ?)]; [|done].
    inversion H; subst; clear H.
    pose proof (filter_recipients_world _ _ _ _ _ _ Hr) as [Hle2 _].
    apply keep_recipient_selected in Hk as ([Hle1 _] & Hle1' & Hsel).
    apply IH in Hr.
    assert (resolves E alert (clock_reads w) (clock_reads w') rs rest) as Hrest.
    { eapply resolves_weaken; [| |exact Hr]; lia. }
    destruct keep.
    + apply resolves_keep with (clock_reads w); [lia|done|done].
    + apply resolves_drop with (clock_reads w); [lia|done|done].
Qed.

(** With a clock that does not move during the resolution, the recipients
    kept are the selected candidates. *)
Lemma resolves_frozen E alert lo hi rs kept now :
  (∀ n, (lo ≤ n ≤ hi)%nat → clock E n = now) →
  resolves E alert lo hi rs kept →
  kept = List.filter (selected E alert now) rs.
Proof.
  intros Hnow. induction 1 as [|r rs kept n Hn Hsel _ IH|r rs kept n Hn Hsel _ IH]; cbn.
  - done.
  - rewrite (Hnow n Hn) in Hsel. by rewrite Hsel, IH.
  - rewrite (Hnow n Hn) in Hsel. by rewrite Hsel, IH.
Qed.

Lemma resolves_elem E alert lo hi rs kept r :
  resolves E alert lo hi rs kept → r ∈ kept →
  r ∈ rs ∧ ∃ n, (lo ≤ n ≤ hi)%nat ∧ selected E alert (clock E n) r = true.
Proof.
  induction 1 as [|r' rs kept n Hn Hsel _ IH|r' rs kept n Hn Hsel _ IH]; intros Hin.
  - by apply elem_of_nil in Hin.
  - apply elem_of_cons in Hin as [->|Hin].
    + split; [left|eauto].
    + destruct (IH Hin) as [? ?]. split; [by right|done].
  - destruct (IH Hin) as [? ?]. split; [by right|done].
Qed.

(** ** Fan-out *)

Lemma notified_refl w : notified w w [].
Proof. unfold notified, same_activity. by rewrite app_nil_r. Qed.

Lemma notified_trans w1 w2 w3 n1 n2 :
  notified w1 w2 n1 → notified w2 w3 n2 → notified w1 w3 (n1 ++ n2).
Proof.
  intros (Hr1 & Ha1 & Hc1 & Hk1 & Hs1 & Hl1) (Hr2 & Ha2 & Hc2 & Hk2 & Hs2 & Hl2).
  unfold notified, same_activity in *.
  repeat split; try congruence; try lia.
  by rewrite Hl2, Hl1, app_assoc.
Qed.

Lemma clock_advanced_notified w w' : clock_advanced w w' → notified w w' [].
Proof.
  intros [Hle ->]. unfold notified, same_activity. cbn. by rewrite app_nil_r.
Qed.

Lemma active_channels_elem w r pk c :
  (pk, c) ∈ active_channels w r → channels w !! pk = Some c ∧ channel_is_active c = true.
Proof.
  unfold active_channels. intros H.
  apply list_elem_of_omap in H as (pk' & _ & H).
  destruct (channels w !! pk') as [c'|] eqn:Hc; cbn in H; [|done].
  destruct (channel_is_active c') eqn:Hact; [|done].
  by simplify_eq.
Qed.

Lemma active_channels_pks w w' r :
  same_activity w w' → (active_channels w' r).*1 = (active_channels w r).*1.
Proof.
  intros Hs. unfold active_channels.
  induction (recipient_channels r) as [|pk pks IH]; [done|].
  cbn. specialize (Hs pk).
  destruct (channels w' !! pk) as [c'|], (channels w !! pk) as [c|];
    cbn in *; simplify_eq; try done.
  rewrite Hs. destruct (channel_is_active c); cbn; by rewrite IH.
Qed.

Lemma delivery_targets_same_activity w w' rs :
  same_activity w w' → delivery_targets w' rs = delivery_targets w rs.
Proof.
  intros Hs. unfold delivery_targets.
  induction rs as [|r rs IH]; [done|].
  cbn. rewrite IH. f_equal.
  pose proof (active_channels_pks w w' r Hs) as Hpk.
  change (λ c : nat * NotificationChannel, (recipient_user r, c.1))
    with ((λ pk : nat, (recipient_user r, pk)) ∘ (fst : nat * NotificationChannel → nat)).
  by rewrite !list_fmap_compose, Hpk.
Qed.

Lemma after_dispatch_notified E alert pk c user w :
  channel_is_active <$> (channels w !! pk) = Some (channel_is_active c) →
  notified w (after_dispatch E alert (pk, c) user w) [final_log E alert (pk, c) user w] ∧
  log_target (final_log E alert (pk, c) user w) = (email user, pk).
Proof.
  intros Hact. split.
  - unfold notified, after_dispatch, same_activity.
    destruct (delivered E alert (pk, c) user); cbn; repeat split; try done; try lia.
    intros pk'. destruct (decide (pk = pk')) as [<-|Hne].
    + by rewrite lookup_insert_eq.
    + by rewrite lookup_insert_ne.
  - pose proof (send_by_type_keeps E alert c user (pending_log alert.1 pk user))
      as (Hrec & _ & Hch & _).
    unfold log_target, final_log. cbn.
    by destruct (send_by_type E alert c user (pending_log alert.1 pk user)).1; cbn;
      rewrite ?Hrec, ?Hch.
Qed.

Lemma for_each_cons {A} (f : A → M unit) x l w :
  for_each f (x :: l) w =
  match f x w with
  | (Ok _, w') => for_each f l w'
  | (Raise e, w') => (Raise e, w')
  end.
Proof. reflexivity. Qed.

(** The inner loop: one dispatch, and one log row, per channel of the list. *)
Lemma dispatch_each E alert user cs w :
  (∀ pk c, (pk, c) ∈ cs →
           channel_is_active <$> (channels w !! pk) = Some (channel_is_active c)) →
  ∃ w' new,
    for_each (λ channel, send_notification_via_channel E alert channel user) cs w
    = (Ok tt, w') ∧
    notified w w' new ∧ log_target <$> new = (λ ch, (email user, ch.1)) <$> cs.
Proof.
  revert w. induction cs as [|[pk c] cs IH]; intros w Hact.
  - exists w, []. split; [done|]. split; [apply notified_refl|done].
  - destruct (after_dispatch_notified E alert pk c user w) as [Hn Ht].
    { apply Hact. left. }
    destruct (IH (after_dispatch E alert (pk, c) user w)) as (w' & new & Hrun & Hn' & Hts).
    { intros pk' c' Hin. destruct Hn as (_ & _ & _ & _ & Hs & _).
      rewrite Hs. apply Hact. by right. }
    exists w', ([final_log E alert (pk, c) user w] ++ new). split; [|split].
    + rewrite for_each_cons. cbn beta.
      by rewrite send_notification_via_channel_eq.
    + by eapply notified_trans.
    + cbn. by rewrite Ht, Hts.
Qed.

Lemma notify_recipient_spec E alert r w :
  ∃ w' new,
    notify_recipient E alert r w = (Ok tt, w') ∧ notified w w' new ∧
    log_target <$> new
    = (λ ch, (email (recipient_user r), ch.1)) <$> active_channels w r.
Proof.
  unfold notify_recipient. rewrite bind_get_world.
  apply dispatch_each. intros pk c Hin.
  apply active_channels_elem in Hin as [-> _]. done.
Qed.

(** The outer loop: the log rows added are those of the delivery targets. *)
Lemma notify_all E alert rs w :
  ∃ w' new,
    for_each (notify_recipient E alert) rs w = (Ok tt, w') ∧ notified w w' new ∧
    log_target <$> new = (λ t, (email t.1, t.2)) <$> delivery_targets w rs.
Proof.
  revert w. induction rs as [|r rs IH]; intros w.
  - exists w, []. split; [done|]. split; [apply notified_refl|done].
  - destruct (notify_recipient_spec E alert r w) as (w1 & new1 & Hrun1 & Hn1 & Ht1).
    destruct (IH w1) as (w' & new & Hrun & Hn & Ht).
    exists w', (new1 ++ new). split; [|split].
    + rewrite for_each_cons. by rewrite Hrun1.
    + by eapply notified_trans.
    + rewrite fmap_app, Ht1, Ht.
      destruct Hn1 as (_ & _ & _ & _ & Hs & _).
      rewrite (delivery_targets_same_activity w w1 rs Hs).
      unfold delivery_targets. cbn. rewrite fmap_app. f_equal.
      by rewrite <- list_fmap_compose.
Qed.

Lemma send_realtime_alert_notified E alert w :
  ∃ w', send_realtime_alert E alert w = (Ok tt, w') ∧ notified w w' [].
Proof.
  unfold send_realtime_alert.
  destruct (group_send E (AlertsOf _)); [destruct (group_send E Dashboard)|];
    eexists; (split; [reflexivity|]);
    unfold notified, same_activity; cbn; by rewrite app_nil_r.
Qed.

(** [send_alert_notifications] either stops in the first loop, on the
    exception the test of a recipient raises, having read the clock only; or
    runs to its end and has added the log rows of the delivery targets. *)
Lemma send_alert_notifications_cases E alert w :
  (∃ e w1, filter_recipients E alert.2
             (recipients_of (camera_location (detection_event alert.2)) w) w
           = (Raise e, w1) ∧
           send_alert_notifications E alert w = (Raise e, w1) ∧ notified w w1 []) ∨
  (∃ filtered w1 w' new,
     filter_recipients E alert.2
       (recipients_of (camera_location (detection_event alert.2)) w) w
     = (Ok filtered, w1) ∧
     send_alert_notifications E alert w = (Ok tt, w') ∧ notified w w' new ∧
     log_target <$> new = (λ t, (email t.1, t.2)) <$> delivery_targets w filtered).
Proof.
  unfold send_alert_notifications. rewrite bind_get_world.
  destruct (filter_recipients E alert.2
              (recipients_of (camera_location (detection_event alert.2)) w) w)
    as [[filtered|e] w1] eqn:Hf.
  - right.
    pose proof (clock_advanced_notified _ _ (filter_recipients_world _ _ _ _ _ _ Hf)) as Hn1.
    destruct (notify_all E alert filtered w1) as (w2 & new & Hrun & Hn2 & Ht).
    destruct (send_realtime_alert_notified E alert w2) as (w3 & Hrt & Hn3).
    exists filtered, w1, w3, new. split; [done|]. split; [|split].
    + erewrite bind_ok by exact Hf.
      erewrite bind_ok by exact Hrun. exact Hrt.
    + pose proof (notified_trans _ _ _ _ _ (notified_trans _ _ _ _ _ Hn1 Hn2) Hn3) as Hn.
      cbn in Hn. by rewrite app_nil_r in Hn.
    + rewrite Ht. destruct Hn1 as (_ & _ & _ & _ & Hs & _).
      by rewrite (delivery_targets_same_activity w w1 filtered Hs).
  - left. exists e, w1. split; [done|]. split.
    + by erewrite bind_raise by exact Hf.
    + apply clock_advanced_notified. by eapply filter_recipients_world.
Qed.

Lemma py_eq_str p v : py_eq (NStr p) v = true ↔ v = JStr p.
Proof.
  destruct v; cbn; try (split; [discriminate|intros [=]]).
  rewrite String.eqb_eq. split; [by intros ->|by intros [= ->]].
Qed.

(** On a list, the priority filter permits an alert when the list is empty
    or contains the priority of the alert. *)
Lemma filter_permits_list alert r l :
  priority_filter r = JList l →
  filter_permits alert r = true ↔ l = [] ∨ JStr (priority alert) ∈ l.
Proof.
  intros Hpf. unfold filter_permits. rewrite Hpf. cbn.
  destruct l as [|v l]; cbn [negb orb holds].
  - split; [by left|done].
  - rewrite existsb_exists. split.
    + intros (x & Hin & Heq). right.
      apply py_eq_str in Heq as ->. by apply list_elem_of_In.
    + intros [?|Hin]; [done|]. exists (JStr (priority alert)).
      split; [by apply list_elem_of_In|by apply py_eq_str].
Qed.

(** The pairs [delivery_targets] lists, read off the subscriptions and the
    channel table. *)
Lemma active_channels_on w r (u : User) :
  (λ c, (u, c.1)) <$> active_channels w r
  = (λ pk, (u, pk)) <$> List.filter (channel_is_on w) (recipient_channels r).
Proof.
  unfold active_channels, channel_is_on.
  induction (recipient_channels r) as [|pk l IH]; [done|]. cbn.
  destruct (channels w !! pk) as [c|]; cbn; [|exact IH].
  destruct (channel_is_active c); cbn; [by rewrite IH|exact IH].
Qed.

Lemma delivery_targets_on w filtered :
  delivery_targets w filtered
  = r ← filtered;
    (λ pk, (recipient_user r, pk)) <$> List.filter (channel_is_on w) (recipient_channels r).
Proof.
  unfold delivery_targets.
  induction filtered as [|r rs IH]; [done|].
  rewrite !bind_cons. by rewrite active_channels_on, IH.
Qed.

(** C4. The candidates are the active recipients of the alert's location.
    The recipients kept are, in order, the candidates whose priority filter
    is empty or contains the priority of the alert and whose time
    restrictions are empty or pass, each judged at a reading of the clock
    made during the resolution; with a clock that does not move meanwhile
    they are the candidates selected at that time. The notifications then
    sent leave one log row per pair of a kept recipient and one of its active
    channels: for each kept recipient in turn, one row for each channel it is
    subscribed to whose row in the channel table is active, and none for a
    channel that is switched off. A recipient whose filter is ['critical'] is
    not kept for an alert of priority 'high'. *)
Theorem recipient_resolution E alert w filtered w1 :
  let location := camera_location (detection_event alert.2) in
  let candidates := recipients_of location w in
  filter_recipients E alert.2 candidates w = (Ok filtered, w1) →
  (∀ r, r ∈ candidates ↔
        r ∈ recipients w ∧ recipient_location r = location ∧ recipient_is_active r = true) ∧
  resolves E alert.2 (clock_reads w) (clock_reads w1) candidates filtered ∧
  (∀ now, (∀ n, (clock_reads w ≤ n ≤ clock_reads w1)%nat → clock E n = now) →
          filtered = List.filter (selected E alert.2 now) candidates) ∧
  (∀ r l, priority_filter r = JList l →
          filter_permits alert.2 r = true ↔ l = [] ∨ JStr (priority alert.2) ∈ l) ∧
  (∃ w' new,
     send_alert_notifications E alert w = (Ok tt, w') ∧
     notification_logs w' = notification_logs w ++ new ∧
     log_target <$> new = (λ t, (email t.1, t.2)) <$> delivery_targets w filtered ∧
     log_target <$> new
     = r ← filtered;
       (λ pk, (email (recipient_user r), pk)) <$>
         List.filter (λ pk, bool_decide (channel_is_active <$> channels w !! pk = Some true))
                     (recipient_channels r)) ∧
  (∀ r, priority_filter r = JList [JStr "critical"] → priority alert.2 = "high" →
        r ∉ filtered).
Proof.
  intros location candidates Hf.
  pose proof (filter_recipients_resolves _ _ _ _ _ _ Hf) as Hres.
  split; [|split; [|split; [|split; [|split]]]].
  - intros r. unfold candidates, recipients_of.
    rewrite list_elem_of_In, filter_In, <- list_elem_of_In.
    rewrite andb_true_iff, Nat.eqb_eq. tauto.
  - exact Hres.
  - intros now Hnow. by eapply resolves_frozen.
  - intros r l. apply filter_permits_list.
  - destruct (send_alert_notifications_cases E alert w)
      as [(e & w2 & Hf' & _)|(filtered' & w2 & w' & new & Hf' & Hrun & Hn & Ht)];
      fold location in Hf'; fold candidates in Hf'; rewrite Hf in Hf'; [done|].
    inversion Hf'; subst filtered' w2.
    exists w', new. split; [done|]. split; [|split; [done|]].
    + by destruct Hn as (_ & _ & _ & _ & _ & Hl).
    + rewrite Ht, delivery_targets_on. clear.
      induction filtered as [|r rs IH]; [done|].
      rewrite !bind_cons, fmap_app, IH. f_equal.
      rewrite <- list_fmap_compose. f_equal.
      induction (recipient_channels r) as [|pk l IHl]; [done|]. cbn.
      unfold channel_is_on at 1.
      destruct (channels w !! pk) as [c|]; cbn; [destruct (channel_is_active c)|];
        cbn; by rewrite IHl.
  - intros r Hpf Hprio Hin.
    destruct (resolves_elem _ _ _ _ _ _ _ Hres Hin) as (_ & n & _ & Hsel).
    unfold selected in Hsel. apply andb_true_iff in Hsel as [Hperm _].
    apply (filter_permits_list alert.2 r _ Hpf) in Hperm as [?|Hperm]; [done|].
    rewrite Hprio in Hperm. apply list_elem_of_singleton in Hperm. discriminate Hperm.
Qed.

Lemma recipient_resolution_witness :
  ∃ w' new,
    send_alert_notifications (demo_env 7 (demo_response 200) (λ _, true))
      (1%nat, demo_alert "pending") demo_switched_off_world = (Ok tt, w') ∧
    notification_logs w' = new ∧
    log_target <$> new = [("chief@example.org", 5%nat)] ∧
    demo_recipient demo_user (JList [JStr "critical"]) ∉ [demo_chief_subscriptions].
Proof.
  destruct (recipient_resolution (demo_env 7 (demo_response 200) (λ _, true))
              (1%nat, demo_alert "pending") demo_switched_off_world
              [demo_chief_subscriptions] demo_switched_off_world eq_refl)
    as (_ & _ & _ & _ & (w' & new & Hrun & Hlogs & _ & Ht) & Hex).
  exists w', new. split; [exact Hrun|]. split; [exact Hlogs|]. split.
  - rewrite Ht. reflexivity.
  - apply Hex; reflexivity.
Defined.

(** ** Processing of a detection *)

Lemma lift_eq {A} (o : outcome A) w : lift o w = (o, w).
Proof. reflexivity. Qed.

Lemma should_trigger_alert_world E rule ev w o w' :
  should_trigger_alert E rule ev w = (o, w') → clock_advanced w w'.
Proof.
  unfold should_trigger_alert. intros H.
  apply bind_inv in H as [(blocked & w1 & Hgate & H)|(e & Hgate & _)]; last first.
  { rewrite in_cooldown_eq in Hgate. by destruct (last_triggered rule). }
  assert (clock_advanced w w1) as Hw1.
  { rewrite in_cooldown_eq in Hgate.
    destruct (last_triggered rule); inversion Hgate; subst;
      [apply clock_advanced_tick | apply clock_advanced_refl]. }
  destruct blocked; [by inversion H; subst|].
  repeat match type of H with
  | (if ?c then _ else _) _ = _ => destruct c
  end;
  try (rewrite lift_eq in H; by inversion H; subst).
  - apply bind_inv in H as [(now & w2 & Hnow & H)|(e & Hnow & _)].
    + rewrite timezone_now_eq in Hnow. inversion Hnow; subst.
      rewrite lift_eq in H. inversion H; subst.
      eapply clock_advanced_trans; [exact Hw1|apply clock_advanced_tick].
    + rewrite timezone_now_eq in Hnow. discriminate Hnow.
  - by inversion H; subst.
Qed.

Lemma should_trigger_alert_gate E rule ev w w' :
  should_trigger_alert E rule ev w = (Ok true, w') → gate_open E rule.
Proof.
  unfold should_trigger_alert, gate_open. intros H.
  apply bind_inv in H as [(blocked & w1 & Hgate & H)|(e & _ & ?)]; [|done].
  rewrite in_cooldown_eq in Hgate.
  destruct (last_triggered rule) as [lt|]; [|done].
  inversion Hgate; subst; clear Hgate.
  destruct (bool_decide_reflect
              (clock E (clock_reads w) - lt < timedelta_minutes (cooldown_minutes rule)))
    as [Hlt|Hge].
  - discriminate H.
  - by exists (clock_reads w).
Qed.

Lemma create_alert_from_rule_eq E rule ev w :
  create_alert_from_rule E rule ev w =
  let alert := new_alert E rule.1 rule.2 ev (clock E (clock_reads w)) in
  if storage_accepts E alert
  then (Ok (Some (S (length (alerts w)), alert)),
        with_alerts (alerts w ++ [alert]) (tick w))
  else (Ok None, tick w).
Proof.
  unfold create_alert_from_rule. run_m.
  by destruct (storage_accepts E _).
Qed.

(** One turn of the loop. Either no alert is created and neither the alerts
    nor the rules change; or the gate was open, one alert of the rule is
    added, and then the rule is saved with [last_triggered] set to a later
    reading of the clock, unless sending the notifications raised. *)
Lemma process_rule_effect E ev k r w o w' :
  process_rule E ev (k, r) w = (o, w') →
  (clock_reads w ≤ clock_reads w')%nat ∧
  ((alerts w' = alerts w ∧ rules w' = rules w ∧ (o = Ok None ∨ ∃ e, o = Raise e)) ∨
   (∃ a, alerts w' = alerts w ++ [a] ∧ alert_rule a = k ∧ gate_open E r ∧
         ((∃ n, (clock_reads w ≤ n < clock_reads w')%nat ∧
                o = Ok (Some (S (length (alerts w)), a)) ∧
                rules w' = <[k := set_last_triggered (Some (clock E n)) r]> (rules w)) ∨
          (∃ e, o = Raise e ∧ rules w' = rules w)))).
Proof.
  unfold process_rule. cbn [fst snd]. intros H.
  apply bind_inv in H as [(triggers & w1 & Htrig & H)|(e & Htrig & ->)]; last first.
  { apply should_trigger_alert_world in Htrig as [Hle ->]. cbn.
    split; [done|]. left. eauto. }
  pose proof (should_trigger_alert_world _ _ _ _ _ _ Htrig) as [Hle1 Hw1].
  destruct triggers; last first.
  { inversion H; subst o w'. rewrite Hw1. cbn. split; [done|]. left. eauto. }
  apply should_trigger_alert_gate in Htrig as Hgate.
  apply bind_inv in H as [(created & w2 & Hc & H)|(e & Hc & _)]; last first.
  { rewrite create_alert_from_rule_eq in Hc. cbn in Hc.
    by destruct (storage_accepts E _). }
  rewrite create_alert_from_rule_eq in Hc. cbn [fst snd] in Hc. cbn zeta in Hc.
  destruct (storage_accepts E _); inversion Hc; subst created w2; clear Hc; last first.
  { inversion H; subst o w'. rewrite Hw1. cbn. split; [lia|]. left. eauto. }
  set (a := new_alert E k r ev (clock E (clock_reads w1))) in *.
  set (w2 := with_alerts (alerts w1 ++ [a]) (tick w1)) in *.
  assert (alerts w2 = alerts w ++ [a] ∧ rules w2 = rules w ∧
          (clock_reads w ≤ clock_reads w2)%nat ∧ length (alerts w1) = length (alerts w))
    as (Ha2 & Hr2 & Hle2 & Hlen).
  { unfold w2. rewrite Hw1. cbn. repeat split; lia. }
  destruct (send_alert_notifications_cases E (S (length (alerts w1)), a) w2)
    as [(e & w3 & _ & Hrun & Hn)|(filtered & w3 & w4 & new & _ & Hrun & Hn & _)].
  - erewrite bind_raise in H by exact Hrun. inversion H; subst o w'.
    destruct Hn as (Hr & Ha & _ & Hk & _).
    split; [lia|]. right. exists a. rewrite Ha, Hr. repeat split; try done.
    right. eauto.
  - erewrite bind_ok in H by exact Hrun.
    destruct Hn as (Hr & Ha & _ & Hk & _).
    run_m. cbn in H. inversion H; subst o w'. cbn.
    split; [lia|]. right. exists a. rewrite Ha, Hr, Hr2, Hlen. repeat split; try done.
    left. exists (clock_reads w4). split; [lia|done].
Qed.

Lemma advanced_weaken E R0 w w1 w' k :
  (clock_reads w ≤ clock_reads w1)%nat → advanced E R0 w1 w' k → advanced E R0 w w' k.
Proof.
  intros Hle (r & n & Hn & HR & Hw'). exists r, n. split; [lia|done].
Qed.

(** The loop over a snapshot [rs] of the rules [R0]. The alerts created are
    added at the end of the alert table, at most one per rule of the
    snapshot and only for a rule whose gate was open; a rule whose row
    changes has had an alert created and has [last_triggered] advanced; when
    the loop returns, it returns the created alerts, and every rule with a
    created alert was advanced. *)
Lemma process_rules_effect E ev R0 rs w o w' :
  (∀ k r, (k, r) ∈ rs → R0 !! k = Some r) →
  process_rules E ev rs w = (o, w') →
  ∃ created,
    alerts w' = alerts w ++ created ∧
    (clock_reads w ≤ clock_reads w')%nat ∧
    (alert_rule <$> created) `sublist_of` rs.*1 ∧
    Forall (λ a, ∃ r, (alert_rule a, r) ∈ rs ∧ gate_open E r) created ∧
    (∀ k, rules w' !! k = rules w !! k ∨
          (advanced E R0 w w' k ∧ k ∈ alert_rule <$> created)) ∧
    (∀ alerts_created, o = Ok alerts_created →
       alerts_created.*2 = created ∧
       alerts_created.*1 = seq (S (length (alerts w))) (length created) ∧
       ∀ k, k ∈ alert_rule <$> created → advanced E R0 w w' k).
Proof.
  revert w o w'. induction rs as [|[k0 r0] rs IH]; intros w o w' Hsnap H.
  { inversion H; subst o w'. exists []. rewrite app_nil_r.
    split; [done|]. split; [done|]. split; [done|]. split; [done|].
    split; [by left|]. intros ? [= <-]. split; [done|]. split; [done|].
    intros k Hk. by apply elem_of_nil in Hk. }
  assert (Hsnap' : ∀ k r, (k, r) ∈ rs → R0 !! k = Some r).
  { intros k r Hin. apply Hsnap. by right. }
  assert (Hweak : ∀ created : list Alert,
            Forall (λ a, ∃ r, (alert_rule a, r) ∈ rs ∧ gate_open E r) created →
            Forall (λ a, ∃ r, (alert_rule a, r) ∈ (k0, r0) :: rs ∧ gate_open E r) created).
  { intros created Hc. eapply Forall_impl; [exact Hc|].
    intros a (r & Hin & Hg). exists r. split; [by right|done]. }
  cbn [process_rules] in H.
  apply bind_inv in H as [(c & w1 & Hhead & H)|(e & Hhead & ->)].
  - (* the turn of the head returns *)
    apply process_rule_effect in Hhead
      as (Hle1 & [(Ha1 & Hr1 & Ho1)|
                  (a & Ha1 & Hak & Hgate & [(n & Hn & Ho1 & Hr1)|(e & Ho1 & _)])]);
      try done.
    + (* no alert for the head *)
      destruct Ho1 as [[= ->]|[e [=]]].
      assert (∃ o2, process_rules E ev rs w1 = (o2, w') ∧
                    (∀ l, o = Ok l → o2 = Ok l)) as (o2 & Htail & Ho).
      { apply bind_inv in H as [(rest & w2 & Htail & H)|(e & Htail & ->)].
        - inversion H; subst. eauto.
        - eexists. split; [done|]. by intros ? [=]. }
      destruct (IH _ _ _ Hsnap' Htail) as (created & Ha & Hle & Hsub & Hall & Hrules & Hret).
      exists created. rewrite Ha, Ha1, Hr1 in *.
      split; [done|]. split; [lia|]. split; [by apply sublist_cons|].
      split; [by apply Hweak|]. split.
      { intros k. destruct (Hrules k) as [?|[Hadv ?]]; [by left|right].
        split; [by eapply advanced_weaken|done]. }
      intros l Hl. destruct (Hret l (Ho l Hl)) as (? & ? & Hadv).
      split; [done|]. split; [done|].
      intros k Hk. eapply advanced_weaken; [exact Hle1|by apply Hadv].
    + (* an alert for the head, the rule is saved *)
      inversion Ho1; subst c; clear Ho1.
      assert (∃ o2, process_rules E ev rs w1 = (o2, w') ∧
                    (∀ l, o = Ok l →
                       ∃ l2, o2 = Ok l2 ∧ l = (S (length (alerts w)), a) :: l2))
        as (o2 & Htail & Ho).
      { apply bind_inv in H as [(rest & w2 & Htail & H)|(e & Htail & ->)].
        - inversion H; subst. eexists. split; [done|]. intros l [= <-]. eauto.
        - eexists. split; [done|]. by intros ? [=]. }
      destruct (IH _ _ _ Hsnap' Htail) as (created & Ha & Hle & Hsub & Hall & Hrules & Hret).
      assert (Hadv0 : advanced E R0 w w' k0).
      { destruct (Hrules k0) as [Heq|[Hadv _]]; [|by eapply advanced_weaken].
        exists r0, n. split; [lia|]. split; [apply Hsnap; left|].
        by rewrite Heq, Hr1, lookup_insert_eq. }
      exists (a :: created). rewrite Ha, Ha1, <- app_assoc. cbn [app fmap list_fmap].
      split; [done|]. split; [lia|]. split; [rewrite Hak; by apply sublist_skip|].
      split.
      { constructor; [|by apply Hweak]. exists r0. rewrite Hak. split; [left|done]. }
      split.
      { intros k. destruct (decide (k = k0)) as [->|Hne].
        - right. split; [done|]. rewrite Hak. left.
        - destruct (Hrules k) as [Heq|[Hadv Hin]].
          + left. by rewrite Heq, Hr1, lookup_insert_ne.
          + right. split; [by eapply advanced_weaken|by right]. }
      intros l Hl. destruct (Ho l Hl) as (l2 & -> & ->).
      destruct (Hret l2 eq_refl) as (Hsnd & Hfst & Hadv).
      cbn. rewrite Hsnd, Hfst, Ha1, length_app. cbn.
      replace (length (alerts w) + 1)%nat with (S (length (alerts w))) by lia.
      split; [done|]. split; [done|].
      intros k Hk. apply elem_of_cons in Hk as [->|Hk]; [by rewrite Hak|].
      eapply advanced_weaken; [exact Hle1|by apply Hadv].
  - (* the turn of the head raises *)
    apply process_rule_effect in Hhead
      as (Hle1 & [(Ha1 & Hr1 & _)|
                  (a & Ha1 & Hak & Hgate & [(n & _ & [=] & _)|(e' & _ & Hr1)])]).
    + exists []. rewrite app_nil_r.
      split; [done|]. split; [done|]. split; [apply sublist_nil_l|].
      split; [done|]. split; [|done]. intros k. left. by rewrite Hr1.
    + exists [a]. cbn.
      split; [done|]. split; [done|].
      split; [rewrite Hak; apply sublist_skip, sublist_nil_l|].
      split. { constructor; [|done]. exists r0. rewrite Hak. split; [left|done]. }
      split; [|done]. intros k. left. by rewrite Hr1.
Qed.

(** The snapshot of a query lists rows of the rule table, once each. *)
Lemma applicable_rules_elem location w k r :
  (k, r) ∈ applicable_rules location w → rules w !! k = Some r.
Proof.
  unfold applicable_rules. rewrite merge_sort_Permutation.
  rewrite list_elem_of_In, filter_In, <- list_elem_of_In.
  intros [Hin _]. by apply elem_of_map_to_list in Hin.
Qed.

Lemma filter_fst_sublist {A B} (f : A * B → bool) (l : list (A * B)) :
  (List.filter f l).*1 `sublist_of` l.*1.
Proof.
  induction l as [|x l IH]; cbn; [done|].
  destruct (f x); cbn; [by apply sublist_skip|by apply sublist_cons].
Qed.

Lemma applicable_rules_NoDup location w : NoDup (applicable_rules location w).*1.
Proof.
  unfold applicable_rules. rewrite merge_sort_Permutation.
  eapply sublist_NoDup; [|apply filter_fst_sublist].
  apply NoDup_fst_map_to_list.
Qed.




(** ** Two detections for the same rule *)

Lemma run_workers_crashed E n e b w :
  run_workers E (replicate n false) (Crashed e) b w = (Crashed e, b, w).
Proof. induction n as [|n IH]; [done|]. cbn. exact IH. Qed.

(** The steps of a worker are those of [process_detection]: scheduled alone,
    a worker in its loop runs [process_rules] on what is left of its
    snapshot. *)
Lemma run_workers_looping E ev rs acc b w :
  run_workers E (replicate (S (length rs)) false) (Looping ev rs acc) b w =
  match process_rules E ev rs w with
  | (Ok l, w') => (Returned (acc ++ l), b, w')
  | (Raise e, w') => (Crashed e, b, w')
  end.
Proof.
  revert acc w. induction rs as [|r rs IH]; intros acc w.
  - cbn. by rewrite app_nil_r.
  - change (replicate (S (length (r :: rs))) false)
      with (false :: replicate (S (length rs)) false).
    cbn [run_workers worker_step process_rules].
    unfold mbind at 1, M_bind at 1.
    destruct (process_rule E ev r w) as [[created|e] w1].
    + rewrite IH. unfold mbind, M_bind.
      destruct (process_rules E ev rs w1) as [[l|e] w2]; [|done].
      cbn. destruct created; cbn; by rewrite <- app_assoc.
    + apply run_workers_crashed.
Qed.

Lemma first_worker_alone E ev b w :
  run_workers E
    (replicate (2 + length (applicable_rules (camera_location ev) w)) false)
    (Starting ev) b w
  = ((finished (process_detection E ev w).1), b, (process_detection E ev w).2).
Proof.
  unfold process_detection. rewrite bind_get_world.
  set (rs := applicable_rules (camera_location ev) w).
  change (replicate (2 + length rs) false) with (false :: replicate (S (length rs)) false).
  cbn [run_workers worker_step]. fold rs. rewrite run_workers_looping.
  by destruct (process_rules E ev rs w) as [[l|e] w'].
Qed.

(** C9 as stated fails. Two workers process two thefts at the same
    instant for a rule with a cooldown of five minutes; both evaluate the
    query before either saves the rule, both find [last_triggered] unset in
    their copy, and each creates an alert: the rule has two alerts. *)
Lemma concurrent_detections_duplicate_alert : ¬ cooldown_gate_is_atomic.
Proof.
  intros H.
  pose (E := demo_env 7 (demo_response 200) (λ _, true)).
  pose (run := run_workers E demo_overlap (Starting demo_event) (Starting demo_event_2)
                 demo_one_rule_world).
  assert (length (alerts_of_rule_since 1 demo_one_rule_world run.2) ≤ 1)%nat as Hle.
  { apply (H E demo_overlap demo_event demo_event_2 demo_one_rule_world
             run.1.1 run.1.2 run.2 1%nat
             (demo_rule "detection_type" demo_theft_conditions None));
      [reflexivity|reflexivity|reflexivity|reflexivity|reflexivity|].
    subst run.
    by destruct (run_workers E demo_overlap (Starting demo_event) (Starting demo_event_2)
                   demo_one_rule_world) as [[a b] w']. }
  vm_compute in Hle. lia.
Qed.

Lemma filter_none {A} (f : A → bool) (l : list A) :
  Forall (λ x, f x = false) l → List.filter f l = [].
Proof.
  induction 1 as [|x l Hx _ IH]; [done|]. cbn. by rewrite Hx.
Qed.

Lemma filter_one {A} (g : A → nat) (k : nat) (l : list A) :
  NoDup (g <$> l) → k ∈ g <$> l →
  length (List.filter (λ a, Nat.eqb (g a) k) l) = 1%nat.
Proof.
  induction l as [|x l IH]; cbn; intros Hnd Hin.
  - by apply elem_of_nil in Hin.
  - apply NoDup_cons in Hnd as [Hx Hnd].
    destruct (Nat.eqb_spec (g x) k) as [Heq|Hne].
    + cbn. rewrite filter_none; [done|].
      apply Forall_forall. intros y Hy.
      apply Nat.eqb_neq. intros Hgy. apply Hx. rewrite Heq, <- Hgy.
      by apply list_elem_of_fmap_2.
    + apply elem_of_cons in Hin as [?|Hin]; [congruence|]. by apply IH.
Qed.

Lemma alerts_since_app rid w w' created :
  alerts w' = alerts w ++ created →
  alerts_of_rule_since rid w w' = List.filter (λ a, Nat.eqb (alert_rule a) rid) created.
Proof.
  intros Ha. unfold alerts_of_rule_since. by rewrite Ha, drop_app_length.
Qed.

(** C9, as the code has it. The cooldown gate reads the copy of the rule the
    worker fetched and is not atomic with the update; what holds is the
    sequential case. When the processing of a first detection has returned
    with an alert of a rule, and every reading of the clock is less than the
    cooldown of the rule after every other, then that first call created
    exactly one alert of the rule, and a second call started afterwards
    creates none. *)
Theorem sequential_detections_single_alert E ev1 ev2 w alerts_created w1 o2 w2 rid rule :
  rules w !! rid = Some rule →
  (∀ n m, clock E m - clock E n < timedelta_minutes (cooldown_minutes rule)) →
  process_detection E ev1 w = (Ok alerts_created, w1) →
  rid ∈ (alert_rule ∘ snd) <$> alerts_created →
  process_detection E ev2 w1 = (o2, w2) →
  length (alerts_of_rule_since rid w w1) = 1%nat ∧
  alerts_of_rule_since rid w1 w2 = [] ∧
  length (alerts_of_rule_since rid w w2) = 1%nat.
Proof.
  intros Hrule Hclock Hrun1 Hin Hrun2.
  unfold process_detection in Hrun1, Hrun2. rewrite bind_get_world in Hrun1, Hrun2.
  apply (process_rules_effect E ev1 (rules w)) in Hrun1
    as (created1 & Ha1 & _ & Hsub1 & _ & _ & Hret1);
    [|apply applicable_rules_elem].
  destruct (Hret1 _ eq_refl) as (Hsnd & _ & Hadv).
  assert (rid ∈ alert_rule <$> created1) as Hin1.
  { by rewrite <- Hsnd, <- list_fmap_compose. }
  destruct (Hadv rid Hin1) as (r & n & _ & Hr & Hr1).
  rewrite Hrule in Hr. inversion Hr; subst r; clear Hr.
  apply (process_rules_effect E ev2 (rules w1)) in Hrun2
    as (created2 & Ha2 & _ & _ & Hgates & _ & _);
    [|apply applicable_rules_elem].
  assert (length (List.filter (λ a, Nat.eqb (alert_rule a) rid) created1) = 1%nat) as Hone.
  { apply filter_one; [|done].
    eapply sublist_NoDup; [apply applicable_rules_NoDup|exact Hsub1]. }
  assert (List.filter (λ a, Nat.eqb (alert_rule a) rid) created2 = []) as Hnone.
  { apply filter_none. eapply Forall_impl; [exact Hgates|].
    intros a (r & Hsnap & Hgate). cbn beta.
    apply Nat.eqb_neq. intros Heq. rewrite Heq in Hsnap.
    apply applicable_rules_elem in Hsnap. rewrite Hr1 in Hsnap.
    inversion Hsnap; subst r. unfold gate_open in Hgate. cbn in Hgate.
    destruct Hgate as (m & Hm). apply Hm, Hclock. }
  rewrite (alerts_since_app rid w w1 created1 Ha1).
  rewrite (alerts_since_app rid w1 w2 created2 Ha2).
  rewrite (alerts_since_app rid w w2 (created1 ++ created2));
    [|by rewrite Ha2, Ha1, app_assoc].
  split; [done|]. split; [done|].
  by rewrite List.filter_app, Hnone, app_nil_r.
Qed.

Lemma sequential_detections_single_alert_witness :
  let E := demo_env 7 (demo_response 200) (λ _, true) in
  let first := process_detection E demo_event demo_one_rule_world in
  let second := process_detection E demo_event_2 first.2 in
  length (alerts_of_rule_since 1 demo_one_rule_world first.2) = 1%nat ∧
  alerts_of_rule_since 1 first.2 second.2 = [] ∧
  length (alerts_of_rule_since 1 demo_one_rule_world second.2) = 1%nat.
Proof.
  intros E first second.
  pose (rule := demo_rule "detection_type" demo_theft_conditions None).
  apply (sequential_detections_single_alert E demo_event demo_event_2 demo_one_rule_world
           [(1%nat, new_alert E 1 rule demo_event 7)]
           first.2 second.1 second.2 1%nat rule).
  - reflexivity.
  - intros n m. vm_compute. reflexivity.
  - by vm_compute.
  - cbn. left.
  - subst second. by destruct (process_detection E demo_event_2 first.2).
Defined.

(** The run behind [concurrent_detections_duplicate_alert]: both workers
    return one created alert, and the table holds two alerts of rule 1. *)
Example overlapping_workers_two_alerts :
  let final := run_workers (demo_env 7 (demo_response 200) (λ _, true)) demo_overlap
                 (Starting demo_event) (Starting demo_event_2) demo_one_rule_world in
  alert_rule <$> alerts final.2 = [1%nat; 1%nat] ∧
  (∃ a1 a2, final.1 = (Returned [(1%nat, a1)], Returned [(2%nat, a2)])) ∧
  (last_triggered <$> rules final.2 !! 1%nat) = Some (Some 7).
Proof.
  cbv zeta. split; [by vm_compute|]. split; [|by vm_compute].
  eexists _, _. vm_compute. reflexivity.
Qed.

(** ** The scenario of the specification, end to end

    A theft of severity critical and confidence 0.9 meets a rule of type
    [detection_type] for thefts that never triggered: one alert of priority
    critical and status pending is created, and one notification is logged
    for the recipient that accepts critical alerts only and one for the
    recipient that accepts every priority. *)
Example theft_scenario :
  let w := with_rules {[ 1%nat := demo_rule "detection_type" demo_theft_conditions None ]}
                      demo_fanout_world in
  let run := process_detection (demo_env 7 (demo_response 200) (λ _, true)) demo_event w in
  (λ a, (priority a, status a)) <$> alerts run.2 = [("critical", "pending")] ∧
  (λ l, (recipient l, log_channel l, log_status l)) <$> notification_logs run.2
  = [("guard@example.org", 5%nat, "sent"); ("chief@example.org", 5%nat, "sent")] ∧
  (last_triggered <$> rules run.2 !! 1%nat) = Some (Some 7).
Proof. by vm_compute. Qed.

(** * Further properties of the pipeline *)

(** ** The branches of [should_trigger_alert] *)

Lemma existsb_py_eq_str p l : existsb (py_eq (NStr p)) l = true ↔ JStr p ∈ l.
Proof.
  rewrite existsb_exists. split.
  - intros (x & Hin & Heq). apply py_eq_str in Heq as ->. by apply list_elem_of_In.
  - intros Hin. exists (JStr p). split; [by apply list_elem_of_In|by apply py_eq_str].
Qed.

(** [n == v] for an [int] [n]: [v] denotes a number equal to [n]. *)
Lemma py_eq_int n v :
  py_eq (NInt n) v = true ↔ ∃ q, py_number v = Some q ∧ (inject_Z n == q)%Q.
Proof.
  destruct v as [|b|q|s|l|d]; cbn.
  - split; [discriminate|]. by intros (q & [=] & _).
  - rewrite Z.eqb_eq. split.
    + intros ->. eexists. split; [done|]. by destruct b.
    + intros (q & [= <-] & Hq). destruct b; unfold Qeq in Hq; cbn in Hq; lia.
  - rewrite Qeq_bool_iff. split; [eauto|]. by intros (q' & [= <-] & Hq).
  - split; [discriminate|]. by intros (q & [=] & _).
  - split; [discriminate|]. by intros (q & [=] & _).
  - split; [discriminate|]. by intros (q & [=] & _).
Qed.

(** The dispatch on the trigger type, once the gate is open. *)
Lemma should_trigger_alert_open E rule ev w w1 :
  in_cooldown E rule w = (Ok false, w1) →
  should_trigger_alert E rule ev w =
  (if String.eqb (trigger_type rule) "detection_type" then
     lift (event_types ← py_get (trigger_conditions rule) "event_types" (JList []);
           py_in (NStr (event_type ev)) event_types)
   else if String.eqb (trigger_type rule) "severity_level" then
     lift (required_severity ← py_get (trigger_conditions rule) "min_severity" (JStr "low");
           required ← severity_rank_json required_severity;
           mret (Z.leb required (severity_rank (severity ev))))
   else if String.eqb (trigger_type rule) "confidence_threshold" then
     lift (min_confidence ← py_get (trigger_conditions rule) "min_confidence" (JNum (1 # 2));
           py_ge (confidence ev) min_confidence)
   else if String.eqb (trigger_type rule) "camera" then
     lift (camera_ids ← py_get (trigger_conditions rule) "camera_ids" (JList []);
           py_in (NInt (camera_id ev)) camera_ids)
   else if String.eqb (trigger_type rule) "zone" then
     lift (zone_ids ← py_get (trigger_conditions rule) "zone_ids" (JList []);
           py_in (NInt (zone_id ev)) zone_ids)
   else if String.eqb (trigger_type rule) "time_window" then
     now ← timezone_now E;
     lift (time_windows ← py_get (trigger_conditions rule) "time_windows" (JList []);
           windows ← py_iter time_windows;
           py_any (window_contains (hour_of now)) windows)
   else mret true) w1.
Proof.
  intros Hgate. unfold should_trigger_alert. by rewrite (bind_ok _ _ _ _ _ Hgate).
Qed.

(** X1. A [detection_type] rule past its cooldown matches exactly the events
    whose type is listed under [event_types], and none when the key is
    missing; the other keys of the conditions (a [min_confidence], say) and
    the other fields of the event play no part. *)
Theorem detection_type_matches_listed E rule detection_event w w1 d l :
  trigger_type rule = "detection_type" →
  in_cooldown E rule w = (Ok false, w1) →
  trigger_conditions rule = JDict d →
  default (JList []) (d !! "event_types") = JList l →
  ∃ b, should_trigger_alert E rule detection_event w = (Ok b, w1) ∧
       (b = true ↔ JStr (event_type detection_event) ∈ l).
Proof.
  intros Hty Hgate Hc Hl.
  rewrite (should_trigger_alert_open _ _ _ _ _ Hgate), Hty, Hc. cbn.
  rewrite Hl. cbn. eexists. split; [reflexivity|]. apply existsb_py_eq_str.
Qed.

Lemma detection_type_matches_listed_witness :
  ∃ b, should_trigger_alert (demo_env 7 (demo_response 200) (λ _, true))
         demo_vol_rule demo_doubtful_theft demo_world = (Ok b, demo_world) ∧
       (b = true ↔ JStr "theft" ∈ [JStr "theft"]).
Proof.
  apply (detection_type_matches_listed _ demo_vol_rule demo_doubtful_theft _ _
           {[ "event_types" := JList [JStr "theft"]; "min_confidence" := JNum (7 # 10) ]});
    reflexivity.
Defined.

Lemma severity_rank_range s : 0 ≤ severity_rank s ≤ 3.
Proof.
  unfold severity_rank, severity_order. cbn.
  repeat match goal with
  | |- context [String.eqb s ?t] => destruct (String.eqb s t)
  end; cbn; lia.
Qed.

Lemma severity_rank_critical s : severity_rank s = 3 ↔ s = "critical".
Proof.
  unfold severity_rank, severity_order. cbn.
  destruct (String.eqb_spec s "low") as [->|?]; [done|].
  destruct (String.eqb_spec s "medium") as [->|?]; [done|].
  destruct (String.eqb_spec s "high") as [->|?]; [done|].
  destruct (String.eqb_spec s "critical") as [->|?]; [done|].
  cbn. split; [lia|done].
Qed.

(** X2. A [severity_level] rule past its cooldown matches when the rank of the
    event's severity (low 0, medium 1, high 2, critical 3, anything else 0)
    is at least the rank of [min_severity], which is 'low' when the key is
    missing. So a missing, 'low' or unknown threshold matches every event, and
    the threshold 'critical' matches the critical events only. *)
Theorem severity_level_matches_rank E rule detection_event w w1 d m :
  trigger_type rule = "severity_level" →
  in_cooldown E rule w = (Ok false, w1) →
  trigger_conditions rule = JDict d →
  default (JStr "low") (d !! "min_severity") = JStr m →
  ∃ b, should_trigger_alert E rule detection_event w = (Ok b, w1) ∧
       (b = true ↔ severity_rank m ≤ severity_rank (severity detection_event)) ∧
       (severity_rank m = 0 → b = true) ∧
       (m = "critical" → (b = true ↔ severity detection_event = "critical")).
Proof.
  intros Hty Hgate Hc Hm.
  rewrite (should_trigger_alert_open _ _ _ _ _ Hgate), Hty, Hc. cbn -[severity_rank].
  rewrite Hm. cbn -[severity_rank]. eexists. split; [reflexivity|].
  pose proof (severity_rank_range (severity detection_event)) as Hr.
  split; [apply Z.leb_le|]. split; [intros H0; apply Z.leb_le; lia|].
  intros ->. rewrite Z.leb_le, <- severity_rank_critical.
  change (severity_rank "critical") with 3. lia.
Qed.

Lemma severity_level_matches_rank_witness :
  ∃ b, should_trigger_alert (demo_env 7 (demo_response 200) (λ _, true))
         demo_incident_rule demo_doubtful_theft demo_world = (Ok b, demo_world) ∧
       (b = true ↔ severity_rank "high" ≤ severity_rank "low").
Proof.
  destruct (severity_level_matches_rank (demo_env 7 (demo_response 200) (λ _, true))
              demo_incident_rule demo_doubtful_theft demo_world demo_world
              {[ "min_severity" := JStr "high" ]} "high"
              eq_refl eq_refl eq_refl eq_refl) as (b & Hrun & Hiff & _).
  exists b. split; [exact Hrun|exact Hiff].
Defined.

(** X3. A [camera] rule (a [zone] rule) past its cooldown matches exactly
    when [camera_ids] ([zone_ids]) lists a number equal to the id of the
    event's camera (zone); a missing key matches nothing, and so does a list
    of identifiers written as strings. *)
Theorem id_rule_matches_listed E rule detection_event w w1 d l key id :
  (trigger_type rule = "camera" ∧ key = "camera_ids" ∧ id = camera_id detection_event) ∨
  (trigger_type rule = "zone" ∧ key = "zone_ids" ∧ id = zone_id detection_event) →
  in_cooldown E rule w = (Ok false, w1) →
  trigger_conditions rule = JDict d →
  default (JList []) (d !! key) = JList l →
  ∃ b, should_trigger_alert E rule detection_event w = (Ok b, w1) ∧
       (b = true ↔ ∃ v q, v ∈ l ∧ py_number v = Some q ∧ (inject_Z id == q)%Q) ∧
       (Forall (λ v, ∃ s, v = JStr s) l → b = false).
Proof.
  intros Hty Hgate Hc Hl.
  assert (Hrun : should_trigger_alert E rule detection_event w
                 = (Ok (existsb (py_eq (NInt id)) l), w1)).
  { rewrite (should_trigger_alert_open _ _ _ _ _ Hgate), Hc.
    destruct Hty as [(-> & -> & ->)|(-> & -> & ->)]; cbn; by rewrite Hl. }
  eexists. split; [exact Hrun|]. split.
  - rewrite existsb_exists. split.
    + intros (v & Hin & Heq). apply py_eq_int in Heq as (q & Hq & Heq).
      exists v, q. by rewrite list_elem_of_In.
    + intros (v & q & Hin & Hq & Heq). exists v.
      split; [by apply list_elem_of_In|]. apply py_eq_int. eauto.
  - intros Hstr. apply not_true_is_false. rewrite existsb_exists.
    intros (v & Hin & Heq). apply list_elem_of_In in Hin.
    rewrite Forall_forall in Hstr. destruct (Hstr v Hin) as [s ->]. discriminate Heq.
Qed.

Lemma id_rule_matches_listed_witness :
  ∃ b, should_trigger_alert (demo_env 7 (demo_response 200) (λ _, true))
         (demo_rule "camera" (JDict {[ "camera_ids" := JList [JStr "7"] ]}) None)
         demo_event demo_world = (Ok b, demo_world) ∧ b = false.
Proof.
  destruct (id_rule_matches_listed (demo_env 7 (demo_response 200) (λ _, true))
              (demo_rule "camera" (JDict {[ "camera_ids" := JList [JStr "7"] ]}) None)
              demo_event demo_world demo_world
              {[ "camera_ids" := JList [JStr "7"] ]} [JStr "7"] "camera_ids" 7)
    as (b & Hrun & _ & Hstr); try reflexivity.
  { left. by repeat split. }
  exists b. split; [exact Hrun|]. apply Hstr. repeat constructor. by exists "7".
Defined.

Lemma window_contains_numeric h bounds :
  window_contains h (window_json bounds) = Ok (hour_in h bounds).
Proof.
  unfold window_contains, window_json, hour_in.
  rewrite lookup_insert_eq. cbn.
  rewrite lookup_insert_ne by done. rewrite lookup_singleton_eq.
  by destruct (Qle_bool bounds.1 (inject_Z h)).
Qed.

Lemma py_any_windows h ws :
  py_any (window_contains h) (window_json <$> ws) = Ok (existsb (hour_in h) ws).
Proof.
  induction ws as [|bounds ws IH]; [done|].
  cbn [fmap list_fmap py_any existsb]. rewrite window_contains_numeric.
  by destruct (hour_in h bounds).
Qed.

Lemma hour_of_range dt : 0 ≤ hour_of dt < 24.
Proof.
  unfold hour_of, time_of.
  pose proof (Z.mod_pos_bound dt us_per_day eq_refl) as Hm.
  split.
  - apply Z.div_pos; [lia|done].
  - apply Z.div_lt_upper_bound; [done|]. unfold us_per_day, us_per_hour in *. lia.
Qed.

Lemma time_window_run E rule ev w w1 d ws :
  trigger_type rule = "time_window" →
  in_cooldown E rule w = (Ok false, w1) →
  trigger_conditions rule = JDict d →
  default (JList []) (d !! "time_windows") = JList (window_json <$> ws) →
  should_trigger_alert E rule ev w
  = (Ok (existsb (hour_in (hour_of (clock E (clock_reads w1)))) ws), tick w1).
Proof.
  intros Hty Hgate Hc Hws.
  rewrite (should_trigger_alert_open _ _ _ _ _ Hgate), Hty, Hc. cbn.
  rewrite (bind_ok _ _ _ _ _ (timezone_now_eq E w1)). rewrite lift_eq.
  cbn. rewrite Hws. cbn. by rewrite py_any_windows.
Qed.

(** X4. A [time_window] rule past its cooldown reads the clock again and
    matches exactly when the hour of that reading, a number from 0 to 23,
    lies in one of the windows, bounds included. The detection event is not
    looked at: the rule matches every event inside its windows. *)
Theorem time_window_matches_hour E rule detection_event w w1 d ws :
  trigger_type rule = "time_window" →
  in_cooldown E rule w = (Ok false, w1) →
  trigger_conditions rule = JDict d →
  default (JList []) (d !! "time_windows") = JList (window_json <$> ws) →
  let h := hour_of (clock E (clock_reads w1)) in
  ∃ b, should_trigger_alert E rule detection_event w = (Ok b, tick w1) ∧
       (b = true ↔ ∃ bounds, bounds ∈ ws ∧
                     (bounds.1 <= inject_Z h)%Q ∧ (inject_Z h <= bounds.2)%Q) ∧
       0 ≤ h < 24.
Proof.
  intros Hty Hgate Hc Hws h.
  eexists. split; [by eapply time_window_run|]. split; [|apply hour_of_range].
  rewrite existsb_exists. fold h. split.
  - intros (bounds & Hin & Hh). exists bounds. apply list_elem_of_In in Hin.
    unfold hour_in in Hh. apply andb_true_iff in Hh as [H1 H2].
    by rewrite <- !Qle_bool_iff.
  - intros (bounds & Hin & H1 & H2). exists bounds.
    split; [by apply list_elem_of_In|].
    unfold hour_in. apply andb_true_iff. by rewrite !Qle_bool_iff.
Qed.

Lemma time_window_matches_hour_witness :
  ∃ b, should_trigger_alert (demo_env (hm 10 30) (demo_response 200) (λ _, true))
         (demo_rule "time_window"
            (JDict {[ "time_windows" := JList [window_json (9%Q, 17%Q)] ]}) None)
         demo_event demo_world = (Ok b, tick demo_world) ∧
       (b = true ↔ ∃ bounds, bounds ∈ [(9%Q, 17%Q)] ∧
                     (bounds.1 <= inject_Z 10)%Q ∧ (inject_Z 10 <= bounds.2)%Q).
Proof.
  destruct (time_window_matches_hour (demo_env (hm 10 30) (demo_response 200) (λ _, true))
              (demo_rule "time_window"
                 (JDict {[ "time_windows" := JList [window_json (9%Q, 17%Q)] ]}) None)
              demo_event demo_world demo_world
              {[ "time_windows" := JList [window_json (9%Q, 17%Q)] ]} [(9%Q, 17%Q)])
    as (b & Hrun & Hiff & _); [reflexivity|reflexivity|reflexivity|reflexivity|].
  exists b. split; [exact Hrun|exact Hiff].
Defined.

(** X5. The windows of a [time_window] rule do not wrap around midnight: a
    rule all of whose windows end before they start, such as the window from
    20 to 7 of the demonstration rule 'Intrusion Nocturne', matches at no
    hour. *)
Theorem time_window_does_not_wrap E rule detection_event w w1 d ws :
  trigger_type rule = "time_window" →
  in_cooldown E rule w = (Ok false, w1) →
  trigger_conditions rule = JDict d →
  default (JList []) (d !! "time_windows") = JList (window_json <$> ws) →
  Forall (λ bounds, (bounds.2 < bounds.1)%Q) ws →
  should_trigger_alert E rule detection_event w = (Ok false, tick w1).
Proof.
  intros Hty Hgate Hc Hws Hwrap.
  rewrite (time_window_run _ _ _ _ _ _ _ Hty Hgate Hc Hws). f_equal. f_equal.
  apply not_true_is_false. rewrite existsb_exists.
  intros (bounds & Hin & Hh). apply list_elem_of_In in Hin.
  rewrite Forall_forall in Hwrap. specialize (Hwrap bounds Hin).
  unfold hour_in in Hh. apply andb_true_iff in Hh as [H1 H2].
  apply Qle_bool_iff in H1, H2.
  apply (Qlt_not_le _ _ Hwrap). by eapply Qle_trans.
Qed.

Lemma time_window_does_not_wrap_witness :
  should_trigger_alert (demo_env (hm 23 0) (demo_response 200) (λ _, true))
    demo_night_rule demo_event demo_world = (Ok false, tick demo_world).
Proof.
  apply (time_window_does_not_wrap _ demo_night_rule demo_event demo_world demo_world
           {[ "event_types" := JList [JStr "intrusion"; JStr "suspicious"];
              "time_windows" := JList [window_json (20%Q, 7%Q)] ]}
           [(20%Q, 7%Q)]); try reflexivity.
  repeat constructor.
Defined.

(** ** Malformed rules, the cooldown and the rules a detection meets *)

Lemma should_trigger_alert_malformed E rule ev w :
  last_triggered rule = None →
  trigger_type rule ∈ known_trigger_types →
  (∀ d, trigger_conditions rule ≠ JDict d) →
  ∃ w1, should_trigger_alert E rule ev w = (Raise AttributeError, w1).
Proof.
  intros Hlt Hty Hc.
  assert (in_cooldown E rule w = (Ok false, w)) as Hgate.
  { by rewrite in_cooldown_eq, Hlt. }
  rewrite (should_trigger_alert_open _ _ _ _ _ Hgate).
  assert (∀ key dflt, py_get (trigger_conditions rule) key dflt = Raise AttributeError)
    as Hget.
  { intros key dflt. destruct (trigger_conditions rule) as [| | | | |d] eqn:Heq; try done.
    by destruct (Hc d). }
  unfold known_trigger_types in Hty.
  repeat (apply elem_of_cons in Hty as [->|Hty]);
    [..|by apply elem_of_nil in Hty]; cbn; rewrite ?lift_eq, ?Hget; eauto.
Qed.

Lemma applicable_rules_spec location w k r :
  (k, r) ∈ applicable_rules location w ↔
  rules w !! k = Some r ∧ rule_location r = location ∧ rule_is_active r = true.
Proof.
  unfold applicable_rules. rewrite merge_sort_Permutation.
  rewrite list_elem_of_In, filter_In, <- list_elem_of_In, elem_of_map_to_list.
  cbn. rewrite andb_true_iff, Nat.eqb_eq. tauto.
Qed.

Lemma process_rules_raises E ev rs k rule :
  (k, rule) ∈ rs →
  (∀ w, ∃ e w1, should_trigger_alert E rule ev w = (Raise e, w1)) →
  ∀ w, ∃ e w', process_rules E ev rs w = (Raise e, w').
Proof.
  intros Hin Hraise. induction rs as [|r rs IH]; intros w.
  { by apply elem_of_nil in Hin. }
  cbn [process_rules].
  destruct (process_rule E ev r w) as [[created|e] w1] eqn:Hturn.
  - apply elem_of_cons in Hin as [<-|Hin].
    + unfold process_rule in Hturn. cbn [snd] in Hturn.
      destruct (Hraise w) as (e & w2 & Hr).
      rewrite (bind_raise _ _ _ _ _ Hr) in Hturn. discriminate Hturn.
    + destruct (IH Hin w1) as (e & w' & Hrest).
      exists e, w'. rewrite (bind_ok _ _ _ _ _ Hturn).
      by rewrite (bind_raise _ _ _ _ _ Hrest).
  - exists e, w1. by rewrite (bind_raise _ _ _ _ _ Hturn).
Qed.

(** X6. One malformed rule makes the processing of every detection of its
    location fail: when an active rule of the location has one of the six
    known trigger types, has never triggered, and holds conditions that are
    not a JSON object, [process_detection] raises; it returns no list of
    alerts, whatever the other rules are. *)
Theorem malformed_rule_aborts_detection E detection_event w k rule :
  rules w !! k = Some rule →
  rule_location rule = camera_location detection_event →
  rule_is_active rule = true →
  last_triggered rule = None →
  trigger_type rule ∈ known_trigger_types →
  (∀ d, trigger_conditions rule ≠ JDict d) →
  ∃ e w', process_detection E detection_event w = (Raise e, w').
Proof.
  intros Hk Hloc Hact Hlt Hty Hc.
  unfold process_detection. rewrite bind_get_world.
  apply (process_rules_raises E detection_event _ k rule).
  - by apply applicable_rules_spec.
  - intros w0. destruct (should_trigger_alert_malformed E rule detection_event w0)
      as (w1 & Hr); eauto.
Qed.

Lemma malformed_rule_aborts_detection_witness :
  ∃ e w', process_detection (demo_env 7 (demo_response 200) (λ _, true))
            demo_event demo_malformed_world = (Raise e, w').
Proof.
  apply (malformed_rule_aborts_detection _ demo_event demo_malformed_world 1%nat
           (demo_rule "camera" (JList [JNum 7]) None));
    try reflexivity.
  - unfold known_trigger_types. cbn. set_solver.
  - intros d. discriminate.
Defined.

(** X7. Matching writes nothing: whatever [should_trigger_alert] returns or
    raises, the rules, alerts, channels, recipients, notification logs and
    broadcasts are as before; it has read the clock at most twice. *)
Theorem matching_is_read_only E rule detection_event w o w' :
  should_trigger_alert E rule detection_event w = (o, w') →
  w' = with_clock_reads (clock_reads w') w ∧
  (clock_reads w ≤ clock_reads w' ≤ clock_reads w + 2)%nat.
Proof.
  intros H.
  destruct (in_cooldown E rule w) as [gate w1] eqn:Hgate.
  assert (w1 = with_clock_reads (clock_reads w1) w ∧
          (clock_reads w ≤ clock_reads w1 ≤ clock_reads w + 1)%nat ∧
          ∃ blocked, gate = Ok blocked) as (Hw1 & Hle1 & blocked & ->).
  { rewrite in_cooldown_eq in Hgate.
    destruct (last_triggered rule); injection Hgate as <- <-; cbn.
    - split; [by destruct w|]. split; [lia|eauto].
    - split; [by destruct w|]. split; [lia|eauto]. }
  destruct blocked.
  - unfold should_trigger_alert in H. rewrite (bind_ok _ _ _ _ _ Hgate) in H.
    inversion H; subst. split; [done|lia].
  - rewrite (should_trigger_alert_open _ _ _ _ _ Hgate) in H.
    repeat match type of H with
    | (if ?c then _ else _) _ = _ => destruct c
    end;
    try (rewrite lift_eq in H; inversion H; subst; split; [done|lia]).
    + rewrite (bind_ok _ _ _ _ _ (timezone_now_eq E w1)), lift_eq in H.
      inversion H; subst. cbn. split; [|lia].
      rewrite Hw1. by destruct w.
    + inversion H; subst. split; [done|lia].
Qed.

Lemma matching_is_read_only_witness :
  let run := should_trigger_alert (demo_env (hm 23 0) (demo_response 200) (λ _, true))
               demo_night_rule demo_event demo_two_rules_world in
  run.2 = with_clock_reads (clock_reads run.2) demo_two_rules_world ∧
  (clock_reads demo_two_rules_world ≤ clock_reads run.2
   ≤ clock_reads demo_two_rules_world + 2)%nat.
Proof.
  intros run.
  apply (matching_is_read_only (demo_env (hm 23 0) (demo_response 200) (λ _, true))
           demo_night_rule demo_event demo_two_rules_world run.1 run.2).
  subst run. by destruct (should_trigger_alert _ _ _ _).
Defined.

(** X8. The cooldown ends on time: once [now - last_triggered] has reached
    [cooldown_minutes], the bound included, the rule is matched as a rule that
    never triggered is, for every trigger type. *)
Theorem cooldown_expires E rule detection_event w lt :
  last_triggered rule = Some lt →
  timedelta_minutes (cooldown_minutes rule) ≤ clock E (clock_reads w) - lt →
  should_trigger_alert E rule detection_event w
  = should_trigger_alert E (set_last_triggered None rule) detection_event (tick w).
Proof.
  intros Hlt Hexp.
  assert (in_cooldown E rule w = (Ok false, tick w)) as Hgate.
  { rewrite in_cooldown_eq, Hlt. by rewrite bool_decide_eq_false_2 by lia. }
  assert (in_cooldown E (set_last_triggered None rule) (tick w) = (Ok false, tick w))
    as Hgate' by by rewrite in_cooldown_eq.
  by rewrite (should_trigger_alert_open _ _ _ _ _ Hgate),
             (should_trigger_alert_open _ _ _ _ _ Hgate').
Qed.

Lemma cooldown_expires_witness :
  should_trigger_alert (demo_env 300000000 (demo_response 200) (λ _, true))
    (demo_rule "detection_type" demo_theft_conditions (Some 0)) demo_event demo_world
  = should_trigger_alert (demo_env 300000000 (demo_response 200) (λ _, true))
      (set_last_triggered None (demo_rule "detection_type" demo_theft_conditions (Some 0)))
      demo_event (tick demo_world).
Proof.
  apply (cooldown_expires _ _ _ _ 0); [reflexivity|].
  vm_compute. discriminate.
Defined.

(** ** The alerts a detection creates *)

(** One turn of the loop adds no alert, or the alert [new_alert] builds for
    the rule from a reading of the clock made during the turn. *)
Lemma process_rule_created E ev k r w o w' :
  process_rule E ev (k, r) w = (o, w') →
  (clock_reads w ≤ clock_reads w')%nat ∧
  (alerts w' = alerts w ∨
   ∃ n, (clock_reads w ≤ n < clock_reads w')%nat ∧
        alerts w' = alerts w ++ [new_alert E k r ev (clock E n)]).
Proof.
  unfold process_rule. cbn [fst snd]. intros H.
  apply bind_inv in H as [(triggers & w1 & Htrig & H)|(e & Htrig & ->)]; last first.
  { apply should_trigger_alert_world in Htrig as [Hle ->]. cbn. split; [done|]. by left. }
  pose proof (should_trigger_alert_world _ _ _ _ _ _ Htrig) as [Hle1 Hw1].
  destruct triggers; last first.
  { inversion H; subst o w'. rewrite Hw1. cbn. split; [done|]. by left. }
  apply bind_inv in H as [(created & w2 & Hc & H)|(e & Hc & _)]; last first.
  { rewrite create_alert_from_rule_eq in Hc. cbn in Hc.
    by destruct (storage_accepts E _). }
  rewrite create_alert_from_rule_eq in Hc. cbn [fst snd] in Hc. cbn zeta in Hc.
  destruct (storage_accepts E _); inversion Hc; subst created w2; clear Hc; last first.
  { inversion H; subst o w'. rewrite Hw1. cbn. split; [lia|]. by left. }
  set (a := new_alert E k r ev (clock E (clock_reads w1))) in *.
  set (w2 := with_alerts (alerts w1 ++ [a]) (tick w1)) in *.
  assert (alerts w2 = alerts w ++ [a] ∧ clock_reads w2 = S (clock_reads w1))
    as (Ha2 & Hc2).
  { unfold w2. rewrite Hw1. cbn. done. }
  destruct (send_alert_notifications_cases E (S (length (alerts w1)), a) w2)
    as [(e & w3 & _ & Hrun & Hn)|(filtered & w3 & w4 & new & _ & Hrun & Hn & _)].
  - erewrite bind_raise in H by exact Hrun. inversion H; subst o w'.
    destruct Hn as (_ & Ha & _ & Hk & _).
    split; [lia|]. right. exists (clock_reads w1). split; [lia|]. by rewrite Ha.
  - erewrite bind_ok in H by exact Hrun.
    destruct Hn as (_ & Ha & _ & Hk & _).
    run_m. cbn in H. inversion H; subst o w'. cbn.
    split; [lia|]. right. exists (clock_reads w1). split; [lia|]. by rewrite Ha.
Qed.

(** The loop over the snapshot [rs]: the rules that fired, each with the
    reading of the clock its alert is dated from, are taken from [rs] in its
    order, and their alerts are added in that order. *)
Lemma process_rules_created E ev rs w o w' :
  process_rules E ev rs w = (o, w') →
  (clock_reads w ≤ clock_reads w')%nat ∧
  ∃ fired : list ((nat * AlertRule) * nat),
    fired.*1 `sublist_of` rs ∧
    Forall (λ f, (clock_reads w ≤ f.2 < clock_reads w')%nat) fired ∧
    alerts w' = alerts w ++ ((λ f, new_alert E f.1.1 f.1.2 ev (clock E f.2)) <$> fired).
Proof.
  revert w o w'. induction rs as [|[k0 r0] rs IH]; intros w o w' H.
  { inversion H; subst o w'. split; [done|]. exists []. cbn.
    rewrite app_nil_r. split; [done|]. split; [constructor|done]. }
  cbn [process_rules] in H.
  apply bind_inv in H as [(created & w1 & Hturn & H)|(e & Hturn & ->)].
  - apply process_rule_created in Hturn as [Hle1 Hturn].
    assert (∃ o2 w2, process_rules E ev rs w1 = (o2, w2) ∧ w2 = w') as (o2 & w2 & Hrest & ->).
    { apply bind_inv in H as [(rest & w2 & Hrest & H)|(e & Hrest & ->)].
      - inversion H; subst. eauto.
      - eauto. }
    apply IH in Hrest as (Hle2 & fired & Hsub & Hn & Ha).
    split; [lia|].
    destruct Hturn as [Ha1|(n & Hn1 & Ha1)].
    + exists fired. split; [by apply sublist_cons|]. split.
      * eapply Forall_impl; [exact Hn|]. cbn. intros; lia.
      * by rewrite Ha, Ha1.
    + exists (((k0, r0), n) :: fired). split; [by apply sublist_skip|]. split.
      * constructor; [cbn; lia|]. eapply Forall_impl; [exact Hn|]. cbn. intros; lia.
      * rewrite Ha, Ha1, <- app_assoc. done.
  - apply process_rule_created in Hturn as [Hle1 Hturn].
    split; [done|].
    destruct Hturn as [Ha1|(n & Hn1 & Ha1)].
    + exists []. cbn. rewrite app_nil_r. split; [apply sublist_nil_l|].
      split; [constructor|done].
    + exists [((k0, r0), n)]. split; [apply sublist_skip, sublist_nil_l|].
      split; [|done]. constructor; [cbn; lia|constructor].
Qed.

Lemma determine_alert_priority_eq rule ev :
  determine_alert_priority rule ev
  = if bool_decide (severity ev ∈ ["critical"; "high"; "medium"])
    then severity ev else "low".
Proof.
  unfold determine_alert_priority.
  destruct (String.eqb_spec (severity ev) "critical") as [->|H1]; [done|].
  destruct (String.eqb_spec (severity ev) "high") as [->|H2]; [done|].
  destruct (String.eqb_spec (severity ev) "medium") as [->|H3]; [done|].
  rewrite bool_decide_eq_false_2; [done|].
  rewrite !elem_of_cons, elem_of_nil. tauto.
Qed.

(** X9. Every alert a detection adds to the table is a fresh one: pending,
    neither sent, acknowledged nor resolved, about that detection, dated from
    a reading of the clock made during the call, raised by a rule that was
    active at the location of the camera when the call started, and of the
    priority the severity of the event gives: the severity itself when it is
    critical, high or medium, and low for every other one. *)
Theorem detection_alerts_are_fresh E ev w o w' :
  process_detection E ev w = (o, w') →
  ∃ created,
    alerts w' = alerts w ++ created ∧
    Forall (λ a,
      status a = "pending" ∧ detection_event a = ev ∧
      sent_at a = None ∧ acknowledged_at a = None ∧ acknowledged_by a = None ∧
      resolved_at a = None ∧ resolved_by a = None ∧
      priority a = (if bool_decide (severity ev ∈ ["critical"; "high"; "medium"])
                    then severity ev else "low") ∧
      (∃ n, (clock_reads w ≤ n < clock_reads w')%nat ∧ created_at a = clock E n) ∧
      (∃ rule, rules w !! alert_rule a = Some rule ∧
               rule_location rule = camera_location ev ∧
               rule_is_active rule = true)) created.
Proof.
  unfold process_detection. rewrite bind_get_world. intros H.
  apply process_rules_created in H as (_ & fired & Hsub & Hn & Ha).
  eexists. split; [exact Ha|].
  apply Forall_fmap, Forall_forall. intros [[k r] n] Hin. cbn.
  rewrite determine_alert_priority_eq.
  do 8 (split; [done|]). split.
  - exists n. split; [|done].
    by apply (proj1 (Forall_forall _ _) Hn _ Hin).
  - exists r. apply applicable_rules_spec.
    eapply elem_of_sublist; [|exact Hsub].
    apply list_elem_of_fmap. by exists ((k, r), n).
Qed.

Lemma detection_alerts_are_fresh_witness :
  let E := demo_env 7 (demo_response 200) (λ _, true) in
  let run := process_detection E demo_event demo_two_rules_world in
  ∃ created,
    alerts run.2 = alerts demo_two_rules_world ++ created ∧
    Forall (λ a,
      status a = "pending" ∧ detection_event a = demo_event ∧
      sent_at a = None ∧ acknowledged_at a = None ∧ acknowledged_by a = None ∧
      resolved_at a = None ∧ resolved_by a = None ∧
      priority a = (if bool_decide (severity demo_event ∈ ["critical"; "high"; "medium"])
                    then severity demo_event else "low") ∧
      (∃ n, (clock_reads demo_two_rules_world ≤ n < clock_reads run.2)%nat ∧
            created_at a = clock E n) ∧
      (∃ rule, rules demo_two_rules_world !! alert_rule a = Some rule ∧
               rule_location rule = camera_location demo_event ∧
               rule_is_active rule = true)) created.
Proof.
  intros E run.
  apply (detection_alerts_are_fresh E demo_event demo_two_rules_world run.1 run.2).
  subst run. by destruct (process_detection _ _ _).
Defined.

(** X10. A detection at a location none of whose rules is active is not
    processed at all: [process_detection] returns the empty list and leaves
    every table, and the clock, untouched; the inactive rules and the rules
    of other locations are not evaluated, malformed or not. *)
Theorem no_applicable_rule_no_effect E detection_event w :
  (∀ k rule, rules w !! k = Some rule →
             rule_location rule = camera_location detection_event →
             rule_is_active rule = false) →
  process_detection E detection_event w = (Ok [], w).
Proof.
  intros Hnone. unfold process_detection. rewrite bind_get_world.
  destruct (applicable_rules (camera_location detection_event) w) as [|[k r] rs] eqn:Hrs;
    [done|].
  assert ((k, r) ∈ applicable_rules (camera_location detection_event) w) as Hin.
  { rewrite Hrs. by left. }
  apply applicable_rules_spec in Hin as (Hk & Hloc & Hact).
  rewrite (Hnone k r Hk Hloc) in Hact. discriminate Hact.
Qed.

Lemma no_applicable_rule_no_effect_witness :
  process_detection (demo_env 7 (demo_response 200) (λ _, true))
    demo_event demo_mixed_world = (Ok [], demo_mixed_world).
Proof.
  apply no_applicable_rule_no_effect.
  intros k rule Hk Hloc. unfold demo_mixed_world, with_rules in Hk. cbn [rules] in Hk.
  apply lookup_insert_Some in Hk as [[<- <-]|[_ Hk]]; [discriminate Hloc|].
  by apply lookup_singleton_Some in Hk as [<- <-].
Defined.

(** ** The order of the rules *)

Lemma rule_before_trans a b c : rule_before a b → rule_before b c → rule_before a c.
Proof. unfold rule_before. lia. Qed.

Lemma rule_before_total a b : rule_before a b ∨ rule_before b a.
Proof. unfold rule_before. lia. Qed.

Lemma applicable_rules_sorted location w :
  StronglySorted rule_before (applicable_rules location w).
Proof.
  unfold applicable_rules.
  apply (@StronglySorted_merge_sort _ rule_before _ rule_before_trans rule_before_total).
Qed.

Lemma sublist_strongly_sorted {A} (R : relation A) (l1 l2 : list A) :
  l1 `sublist_of` l2 → StronglySorted R l2 → StronglySorted R l1.
Proof.
  induction 1 as [|x l1 l2 Hsub IH|x l1 l2 Hsub IH]; [done|..];
    rewrite !StronglySorted_cons; intros [Hx Hs].
  - split; [|by apply IH]. apply Forall_forall. intros y Hy.
    apply (proj1 (Forall_forall _ _) Hx). by eapply elem_of_sublist.
  - by apply IH.
Qed.

Lemma strongly_sorted_lookup {A} (R : relation A) (l : list A) i j x y :
  StronglySorted R l → (i < j)%nat → l !! i = Some x → l !! j = Some y → R x y.
Proof.
  intros Hs. revert i j. induction Hs as [|z l Hs IH Hz]; intros i j Hij Hi Hj.
  { by rewrite lookup_nil in Hi. }
  destruct j as [|j]; [lia|]. cbn in Hj. destruct i as [|i].
  - injection Hi as <-. apply (proj1 (Forall_forall _ _) Hz).
    by eapply list_elem_of_lookup_2.
  - cbn in Hi. apply (IH i j); [lia|done..].
Qed.

(** X11. The rules are tried in the order of the model's default ordering,
    so the alerts of one detection are numbered in that order: of two alerts
    the same call adds, the one stored first comes from the rule with the
    smaller [priority], and at equal priority from the rule created last. *)
Theorem detection_alerts_follow_rule_order E ev w o w' i j a b :
  process_detection E ev w = (o, w') →
  (length (alerts w) ≤ i < j)%nat →
  alerts w' !! i = Some a →
  alerts w' !! j = Some b →
  ∃ ra rb, rules w !! alert_rule a = Some ra ∧ rules w !! alert_rule b = Some rb ∧
           rule_before (alert_rule a, ra) (alert_rule b, rb).
Proof.
  unfold process_detection. rewrite bind_get_world. intros H Hij Hi Hj.
  apply process_rules_created in H as (_ & fired & Hsub & _ & Ha).
  rewrite Ha in Hi, Hj.
  rewrite lookup_app_r in Hi, Hj by lia.
  apply list_lookup_fmap_Some in Hi as (fa & -> & Hfa).
  apply list_lookup_fmap_Some in Hj as (fb & -> & Hfb).
  cbn [alert_rule new_alert].
  assert (∀ n f, fired !! n = Some f →
            rules w !! f.1.1 = Some f.1.2) as Hrow.
  { intros n f Hf. apply (applicable_rules_elem (camera_location ev)).
    eapply elem_of_sublist; [|exact Hsub].
    apply list_elem_of_fmap. exists f. split; [by destruct f as [[] ?]|].
    by eapply list_elem_of_lookup_2. }
  exists fa.1.2, fb.1.2. split; [by eapply Hrow|]. split; [by eapply Hrow|].
  assert (rule_before fa.1 fb.1) as Hord.
  { apply (strongly_sorted_lookup rule_before fired.*1 (i - length (alerts w))
             (j - length (alerts w))).
    - eapply sublist_strongly_sorted; [exact Hsub|apply applicable_rules_sorted].
    - lia.
    - by rewrite list_lookup_fmap, Hfa.
    - by rewrite list_lookup_fmap, Hfb. }
  by destruct fa as [[] ?], fb as [[] ?].
Qed.

Lemma detection_alerts_follow_rule_order_witness :
  let E := demo_env 7 (demo_response 200) (λ _, true) in
  let run := process_detection E demo_event demo_priority_world in
  ∃ a b ra rb,
    alerts run.2 !! 0%nat = Some a ∧ alerts run.2 !! 1%nat = Some b ∧
    rules demo_priority_world !! alert_rule a = Some ra ∧
    rules demo_priority_world !! alert_rule b = Some rb ∧
    rule_before (alert_rule a, ra) (alert_rule b, rb).
Proof.
  intros E run.
  assert (∃ a b, alerts run.2 !! 0%nat = Some a ∧ alerts run.2 !! 1%nat = Some b)
    as (a & b & Ha & Hb).
  { vm_compute. eauto. }
  destruct (detection_alerts_follow_rule_order E demo_event demo_priority_world
              run.1 run.2 0 1 a b) as (ra & rb & H); [|cbn; lia|done|done|].
  - subst run. by destruct (process_detection _ _ _).
  - exists a, b, ra, rb. tauto.
Defined.

(** ** A recipient that cannot be tested *)

Lemma filter_recipients_raises E alert rs r e :
  r ∈ rs → priority_allows alert r = Raise e →
  ∀ w, ∃ e' w1, filter_recipients E alert rs w = (Raise e', w1).
Proof.
  intros Hin Hr. induction rs as [|r0 rs IH]; intros w.
  { by apply elem_of_nil in Hin. }
  cbn [filter_recipients].
  destruct (keep_recipient E alert r0 w) as [[keep|e0] w1] eqn:Hk.
  - apply elem_of_cons in Hin as [<-|Hin].
    + rewrite keep_recipient_eq, Hr in Hk. discriminate Hk.
    + destruct (IH Hin w1) as (e' & w2 & Hrest). exists e', w2.
      rewrite (bind_ok _ _ _ _ _ Hk). by rewrite (bind_raise _ _ _ _ _ Hrest).
  - exists e0, w1. by rewrite (bind_raise _ _ _ _ _ Hk).
Qed.

Lemma send_alert_notifications_blocked E alert w r e :
  r ∈ recipients_of (camera_location (detection_event alert.2)) w →
  priority_allows alert.2 r = Raise e →
  ∃ e' w', send_alert_notifications E alert w = (Raise e', w') ∧ clock_advanced w w'.
Proof.
  intros Hin Hr.
  destruct (filter_recipients_raises E alert.2 _ r e Hin Hr w) as (e' & w1 & Hf).
  exists e', w1. split.
  - unfold send_alert_notifications. rewrite bind_get_world.
    by rewrite (bind_raise _ _ _ _ _ Hf).
  - by eapply filter_recipients_world.
Qed.

(** X12. One recipient that cannot be tested silences an alert for everyone:
    when the priority filter of an active recipient of the location makes the
    membership test raise (a number, say, where a list is expected),
    [send_alert_notifications] raises before anything is sent; no recipient
    is notified, also not those tested before, no log row is written, no
    channel is marked as used and nothing is broadcast. *)
Theorem untestable_recipient_blocks_fanout E alert w r e :
  r ∈ recipients w →
  recipient_location r = camera_location (detection_event alert.2) →
  recipient_is_active r = true →
  priority_allows alert.2 r = Raise e →
  ∃ e' w', send_alert_notifications E alert w = (Raise e', w') ∧
           notification_logs w' = notification_logs w ∧
           broadcasts w' = broadcasts w ∧
           channels w' = channels w.
Proof.
  intros Hin Hloc Hact Hr.
  destruct (send_alert_notifications_blocked E alert w r e) as (e' & w' & Hrun & _ & Hw');
    [|done|].
  { unfold recipients_of. apply list_elem_of_In, filter_In.
    split; [by apply list_elem_of_In|].
    by rewrite Hloc, Nat.eqb_refl, Hact. }
  exists e', w'. split; [done|]. by rewrite Hw'.
Qed.

Lemma untestable_recipient_blocks_fanout_witness :
  ∃ e' w', send_alert_notifications (demo_env 7 (demo_response 200) (λ _, true))
             (1%nat, demo_alert "pending") demo_faulty_world = (Raise e', w') ∧
           notification_logs w' = notification_logs demo_faulty_world ∧
           broadcasts w' = broadcasts demo_faulty_world ∧
           channels w' = channels demo_faulty_world.
Proof.
  apply (untestable_recipient_blocks_fanout _ _ _ (demo_recipient demo_chief (JNum 1))
           TypeError); [|reflexivity..].
  unfold demo_faulty_world. cbn. set_solver.
Defined.

(** X13. An alert whose notifications cannot be sent is kept, but its rule
    is not put on cooldown: when the first rule tried matches, its alert is
    stored, and the test of a recipient then raises, [process_detection]
    raises; the alert stays in the table, no rule row is written (so
    [last_triggered] is unchanged and the next detection raises the alert
    again), nothing is logged or broadcast. *)
Theorem failed_fanout_keeps_alert_without_cooldown E ev w k rule rs w1 r e :
  applicable_rules (camera_location ev) w = (k, rule) :: rs →
  should_trigger_alert E rule ev w = (Ok true, w1) →
  storage_accepts E (new_alert E k rule ev (clock E (clock_reads w1))) = true →
  r ∈ recipients_of (camera_location ev) w →
  priority_allows (new_alert E k rule ev (clock E (clock_reads w1))) r = Raise e →
  ∃ e' w', process_detection E ev w = (Raise e', w') ∧
           alerts w' = alerts w ++ [new_alert E k rule ev (clock E (clock_reads w1))] ∧
           rules w' = rules w ∧
           notification_logs w' = notification_logs w ∧
           broadcasts w' = broadcasts w.
Proof.
  intros Hrs Htrig Hacc Hin Hr.
  pose proof (should_trigger_alert_world _ _ _ _ _ _ Htrig) as [_ Hw1].
  set (a := new_alert E k rule ev (clock E (clock_reads w1))) in *.
  set (w2 := with_alerts (alerts w1 ++ [a]) (tick w1)).
  destruct (send_alert_notifications_blocked E (S (length (alerts w1)), a) w2 r e)
    as (e' & w' & Hrun & _ & Hw'); [|done|].
  { unfold w2. rewrite Hw1. exact Hin. }
  exists e', w'. split.
  - unfold process_detection. rewrite bind_get_world, Hrs. cbn [process_rules].
    apply bind_raise. unfold process_rule. cbn [fst snd].
    rewrite (bind_ok _ _ _ _ _ Htrig).
    assert (create_alert_from_rule E (k, rule) ev w1
            = (Ok (Some (S (length (alerts w1)), a)), w2)) as Hc.
    { rewrite create_alert_from_rule_eq. cbn [fst snd]. cbn zeta. fold a.
      by rewrite Hacc. }
    rewrite (bind_ok _ _ _ _ _ Hc). by apply bind_raise.
  - rewrite Hw'. unfold w2. rewrite Hw1. cbn. done.
Qed.

Lemma failed_fanout_keeps_alert_without_cooldown_witness :
  let E := demo_env 7 (demo_response 200) (λ _, true) in
  let rule := demo_rule "detection_type" demo_theft_conditions None in
  ∃ e' w', process_detection E demo_event demo_faulty_world = (Raise e', w') ∧
           alerts w' = alerts demo_faulty_world ++ [new_alert E 1 rule demo_event 7] ∧
           rules w' = rules demo_faulty_world ∧
           notification_logs w' = notification_logs demo_faulty_world ∧
           broadcasts w' = broadcasts demo_faulty_world.
Proof.
  intros E rule.
  apply (failed_fanout_keeps_alert_without_cooldown E demo_event demo_faulty_world
           1%nat rule [] demo_faulty_world (demo_recipient demo_chief (JNum 1)) TypeError);
    [reflexivity|reflexivity|reflexivity| |reflexivity].
  unfold recipients_of, demo_faulty_world. cbn. set_solver.
Defined.

(** ** The dispatch of one notification, by channel type *)

Lemma py_take_len n s : py_len (py_take n s) = Nat.min n (py_len s).
Proof.
  revert n. induction s as [|c s IH]; intros n; cbn; [by destruct n|].
  destruct (utf8_continuation c) eqn:Hc; cbn.
  - by rewrite Hc, IH.
  - destruct n as [|n]; cbn; [done|]. by rewrite Hc, IH.
Qed.

Lemma py_take_split n s :
  ∃ rest, s = String.append (py_take n s) rest ∧
          match rest with
          | String c _ => utf8_continuation c = false
          | EmptyString => True
          end.
Proof.
  revert n. induction s as [|c s IH]; intros n; cbn; [by exists EmptyString|].
  destruct (utf8_continuation c) eqn:Hc.
  - destruct (IH n) as (rest & Hs & Hrest). exists rest.
    split; [|done]. change (String c s = String c (String.append (py_take n s) rest)).
    by f_equal.
  - destruct n as [|n].
    + exists (String c s). done.
    + destruct (IH n) as (rest & Hs & Hrest). exists rest.
      split; [|done]. change (String c s = String c (String.append (py_take n s) rest)).
      by f_equal.
Qed.


(** X14. A channel whose type has no adapter never delivers: for every type
    other than email, sms, webhook and push (the declared types slack and
    teams among them), a dispatch contacts nothing and only adds one log row,
    failed with the dispatcher's message; the clock is not read and the
    channel is not marked as used. *)
Theorem unsupported_channel_type_fails E alert channel user w :
  channel_type channel.2 ∉ ["email"; "sms"; "webhook"; "push"] →
  send_notification_via_channel E alert channel user w
  = (Ok tt, with_notification_logs
              (notification_logs w ++ [plain_failed_log alert.1 channel.1 user]) w).
Proof.
  intros Hty. rewrite send_notification_via_channel_eq.
  unfold after_dispatch, final_log, delivered, send_by_type.
  rewrite !elem_of_cons, elem_of_nil in Hty.
  destruct (String.eqb_spec (channel_type channel.2) "email"); [tauto|].
  destruct (String.eqb_spec (channel_type channel.2) "sms"); [tauto|].
  destruct (String.eqb_spec (channel_type channel.2) "webhook"); [tauto|].
  destruct (String.eqb_spec (channel_type channel.2) "push"); [tauto|].
  reflexivity.
Qed.

Lemma unsupported_channel_type_fails_witness :
  send_notification_via_channel (demo_env 7 (demo_response 200) (λ _, true))
    (1%nat, demo_alert "pending") demo_slack demo_user demo_world
  = (Ok tt, with_notification_logs [plain_failed_log 1 6 demo_user] demo_world).
Proof.
  apply (unsupported_channel_type_fails _ (1%nat, demo_alert "pending") demo_slack
           demo_user demo_world).
  cbn. rewrite !elem_of_cons, elem_of_nil. intros [?|[?|[?|[?|[]]]]]; discriminate.
Defined.


(** X16. An SMS dispatch is decided by the telephone number alone, and no
    transport is involved: with an object as configuration the row is sent
    exactly when the configured [phone_number], or without that key the
    telephone of the user's profile, is truthy. A configured empty number
    fails the dispatch even for a user whose profile has a telephone. *)
Theorem sms_sent_iff_phone E alert channel user w d :
  channel_type channel.2 = "sms" →
  configuration channel.2 = JDict d →
  ∃ log w',
    send_notification_via_channel E alert channel user w = (Ok tt, w') ∧
    notification_logs w' = notification_logs w ++ [log] ∧
    (log_status log = "sent" ↔
     py_truthy (default (default JNull (profile_phone user)) (d !! "phone_number")) = true) ∧
    (log_status log = "failed" ↔
     py_truthy (default (default JNull (profile_phone user)) (d !! "phone_number")) = false).
Proof.
  intros Hty Hc.
  exists (final_log E alert channel user w), (after_dispatch E alert channel user w).
  split; [apply send_notification_via_channel_eq|]. split; [reflexivity|].
  unfold final_log, send_by_type. rewrite Hty. cbn.
  unfold send_sms_notification. rewrite Hc. cbn.
  by destruct (py_truthy _); cbn.
Qed.

Lemma sms_sent_iff_phone_witness :
  ∃ log w',
    send_notification_via_channel (demo_env 7 (demo_response 200) (λ _, true))
      (1%nat, demo_alert "pending") demo_sms demo_user_with_phone demo_world = (Ok tt, w') ∧
    notification_logs w' = notification_logs demo_world ++ [log] ∧
    log_status log = "failed".
Proof.
  destruct (sms_sent_iff_phone (demo_env 7 (demo_response 200) (λ _, true))
              (1%nat, demo_alert "pending") demo_sms demo_user_with_phone
              demo_world {[ "phone_number" := JStr "" ]})
    as (log & w' & Hrun & Hlogs & _ & Hfailed); [reflexivity|reflexivity|].
  exists log, w'. split; [exact Hrun|]. split; [exact Hlogs|].
  apply Hfailed. reflexivity.
Defined.

(** X17. A webhook channel without a usable URL makes no request: when the
    configuration is an object whose [webhook_url] is missing or falsy, the
    dispatch only adds a failed row with the dispatcher's message, whatever
    the HTTP transport would answer; nothing of a response is recorded and
    the channel is not marked as used. *)
Theorem webhook_without_url_sends_nothing E alert channel user w d :
  channel_type channel.2 = "webhook" →
  configuration channel.2 = JDict d →
  py_truthy (default JNull (d !! "webhook_url")) = false →
  send_notification_via_channel E alert channel user w
  = (Ok tt, with_notification_logs
              (notification_logs w ++ [plain_failed_log alert.1 channel.1 user]) w).
Proof.
  intros Hty Hc Hurl. rewrite send_notification_via_channel_eq.
  unfold after_dispatch, final_log, delivered.
  rewrite (send_by_type_webhook _ _ _ _ _ Hty).
  unfold send_webhook_notification, webhook_exchange. rewrite Hc. cbn.
  by rewrite Hurl.
Qed.

Lemma webhook_without_url_sends_nothing_witness :
  send_notification_via_channel (demo_env 7 (demo_response 200) (λ _, true))
    (1%nat, demo_alert "pending") demo_webhook_no_url demo_user demo_world
  = (Ok tt, with_notification_logs [plain_failed_log 1 8 demo_user] demo_world).
Proof.
  apply (webhook_without_url_sends_nothing _ (1%nat, demo_alert "pending")
           demo_webhook_no_url demo_user demo_world {[ "headers" := JDict ∅ ]});
    reflexivity.
Defined.

(** X18. What a webhook endpoint answers is recorded whether or not the
    dispatch counts as sent: when the request to the configured URL is
    answered, the row holds the [X-Message-ID] of the answer as external id
    (empty when the header is absent), and in its metadata the HTTP status
    and the body of the answer cut after its first 500 characters, a
    character of several bytes being kept or dropped as a whole. *)
Theorem webhook_response_is_recorded E alert channel user w d url headers r :
  channel_type channel.2 = "webhook" →
  configuration channel.2 = JDict d →
  d !! "webhook_url" = Some url → py_truthy url = true →
  merged_headers E (default (JDict ∅) (d !! "headers")) = Ok headers →
  requests_post E url headers (webhook_payload E alert) = Ok r →
  ∃ log w' body rest,
    send_notification_via_channel E alert channel user w = (Ok tt, w') ∧
    notification_logs w' = notification_logs w ++ [log] ∧
    external_id log = default "" (x_message_id r) ∧
    py_get (log_metadata log) "status_code" JNull = Ok (json_of_Z (status_code r)) ∧
    py_get (log_metadata log) "response" JNull = Ok (JStr body) ∧
    response_text r = String.append body rest ∧
    py_len body = Nat.min 500 (py_len (response_text r)) ∧
    match rest with
    | String c _ => utf8_continuation c = false
    | EmptyString => True
    end.
Proof.
  intros Hty Hc Hurl Htruthy Hh Hpost.
  assert (webhook_exchange E alert channel.2 = Ok (Some r)) as Hr.
  { rewrite (webhook_exchange_posts _ _ _ _ _ _ Hc Hurl Htruthy Hh), Hpost. done. }
  destruct (py_take_split 500 (response_text r)) as (rest & Hsplit & Hrest).
  exists (final_log E alert channel user w), (after_dispatch E alert channel user w),
         (py_take 500 (response_text r)), rest.
  split; [apply send_notification_via_channel_eq|]. split; [reflexivity|].
  unfold final_log. rewrite (send_by_type_webhook _ _ _ _ _ Hty).
  unfold send_webhook_notification. rewrite Hr.
  split; [by destruct (bool_decide _)|].
  split; [by destruct (bool_decide _)|].
  split; [by destruct (bool_decide _)|].
  split; [exact Hsplit|]. split; [apply py_take_len|exact Hrest].
Qed.

Lemma webhook_response_is_recorded_witness :
  ∃ log w' body,
    send_notification_via_channel (demo_env 7 demo_accents_response (λ _, true))
      (1%nat, demo_alert "pending") demo_webhook demo_user demo_world = (Ok tt, w') ∧
    notification_logs w' = notification_logs demo_world ++ [log] ∧
    log_status log = "failed" ∧
    external_id log = "" ∧
    py_get (log_metadata log) "status_code" JNull = Ok (json_of_Z 503) ∧
    py_get (log_metadata log) "response" JNull = Ok (JStr body) ∧
    py_len body = 300%nat ∧ String.length body = 600%nat.
Proof.
  destruct (webhook_response_is_recorded (demo_env 7 demo_accents_response (λ _, true))
              (1%nat, demo_alert "pending") demo_webhook demo_user demo_world
              {[ "webhook_url" := JStr "https://example.org/hook" ]}
              (JStr "https://example.org/hook")
              (∅ ∪ {[ "Content-Type" := JStr "application/json" ]})
              {| status_code := 503; x_message_id := None;
                 response_text := demo_repeat 300 "é" |})
    as (log & w' & body & rest & Hrun & Hlogs & Hid & Hcode & Hbody & Hsplit & Hlen & _);
    [reflexivity..|].
  exists log, w', body. split; [exact Hrun|]. split; [exact Hlogs|].
  assert (w' = after_dispatch (demo_env 7 demo_accents_response (λ _, true))
                 (1%nat, demo_alert "pending") demo_webhook demo_user demo_world) as Hw'.
  { rewrite send_notification_via_channel_eq in Hrun. by injection Hrun. }
  assert (log = final_log (demo_env 7 demo_accents_response (λ _, true))
                  (1%nat, demo_alert "pending") demo_webhook demo_user demo_world) as Hlog.
  { rewrite Hw' in Hlogs. cbn in Hlogs. by injection Hlogs. }
  assert (body = demo_repeat 300 "é") as Hwhole.
  { rewrite Hlog in Hbody. vm_compute in Hbody. injection Hbody as <-.
    by vm_compute. }
  split; [by rewrite Hlog|]. split; [exact Hid|]. split; [exact Hcode|].
  split; [exact Hbody|]. rewrite Hwhole. split; by vm_compute.
Defined.

(** ** The human actions on an alert *)

Lemma resolve_alert_run E user alert_id body w alert :
  get_alert w alert_id = Some alert →
  resolve_alert E user alert_id body w =
  match (data ← from_option Ok (Raise JSONDecodeError) body;
         py_get data "notes" (JStr "")) with
  | Raise e => (Ok (Json400 (str_of_exn E e)), w)
  | Ok notes =>
      match (if py_truthy notes then with_resolution_notes notes (metadata alert)
             else Ok (metadata alert)) with
      | Raise e => (Ok (Json400 (str_of_exn E e)), tick w)
      | Ok meta =>
          (Ok (Json200 "resolved"),
           with_alerts (<[pred alert_id :=
                           set_resolved (clock E (clock_reads w)) user meta alert]> (alerts w))
                       (tick w))
      end
  end.
Proof.
  intros H. unfold resolve_alert. rewrite bind_get_world, H.
  destruct (data ← from_option Ok (Raise JSONDecodeError) body;
            py_get data "notes" (JStr "")) as [notes|e]; [|done].
  unfold mbind at 1, M_bind. cbn.
  by destruct (if py_truthy notes then with_resolution_notes notes (metadata alert)
               else Ok (metadata alert)) as [meta|e].
Qed.

Lemma touches_only_alert_refl alert_id w : touches_only_alert alert_id w w.
Proof. by unfold touches_only_alert. Qed.

Lemma touches_only_alert_tick alert_id w : touches_only_alert alert_id w (tick w).
Proof. by unfold touches_only_alert. Qed.

Lemma touches_only_alert_saved alert_id old alert w :
  get_alert w alert_id = Some old →
  touches_only_alert alert_id w
    (with_alerts (<[pred alert_id := alert]> (alerts w)) (tick w)).
Proof.
  intros Hold. destruct alert_id as [|j]; [done|].
  unfold touches_only_alert. cbn. split; [apply length_insert|].
  split; [|done]. intros [|i] Hne; [done|]. cbn.
  apply list_lookup_insert_ne. congruence.
Qed.

(** X19. Acknowledging or resolving an alert changes that alert only: the
    other alerts, the number of alerts, the rules, channels, recipients,
    notification logs and broadcasts are as before, whatever the request and
    whether it succeeds; and a request for an id that names no alert is
    answered with 404 and changes nothing, the clock included. *)
Theorem alert_actions_touch_one_alert E user alert_id body w :
  touches_only_alert alert_id w (acknowledge_alert E user alert_id w).2 ∧
  touches_only_alert alert_id w (resolve_alert E user alert_id body w).2 ∧
  ((alert_id = 0 ∨ length (alerts w) < alert_id)%nat →
   acknowledge_alert E user alert_id w = (Ok Http404, w) ∧
   resolve_alert E user alert_id body w = (Ok Http404, w)).
Proof.
  destruct (get_alert w alert_id) as [alert|] eqn:Hget.
  - split; [|split].
    + rewrite (acknowledge_alert_eq _ _ _ _ _ Hget).
      destruct (acknowledgeable alert); cbn;
        [by eapply touches_only_alert_saved|apply touches_only_alert_refl].
    + rewrite (resolve_alert_run _ _ _ _ _ _ Hget).
      destruct (data ← from_option Ok (Raise JSONDecodeError) body;
                py_get data "notes" (JStr "")) as [notes|e];
        [|apply touches_only_alert_refl].
      destruct (if py_truthy notes then with_resolution_notes notes (metadata alert)
                else Ok (metadata alert)) as [meta|e]; cbn;
        [by eapply touches_only_alert_saved|apply touches_only_alert_tick].
    + intros [->|Hlen]; [done|]. destruct alert_id as [|i]; [done|]. cbn in Hget.
      apply lookup_lt_Some in Hget. lia.
  - assert (acknowledge_alert E user alert_id w = (Ok Http404, w)) as Hack.
    { unfold acknowledge_alert. by rewrite bind_get_world, Hget. }
    assert (resolve_alert E user alert_id body w = (Ok Http404, w)) as Hres.
    { unfold resolve_alert. by rewrite bind_get_world, Hget. }
    rewrite Hack, Hres. cbn.
    split; [apply touches_only_alert_refl|]. split; [apply touches_only_alert_refl|done].
Qed.

Lemma alert_actions_touch_one_alert_witness :
  acknowledge_alert (demo_env 7 (demo_response 200) (λ _, true)) 1 2 demo_stored_world
  = (Ok Http404, demo_stored_world) ∧
  resolve_alert (demo_env 7 (demo_response 200) (λ _, true)) 1 2 (Some (JDict ∅))
    demo_stored_world
  = (Ok Http404, demo_stored_world).
Proof.
  apply (alert_actions_touch_one_alert (demo_env 7 (demo_response 200) (λ _, true))
           1 2 (Some (JDict ∅)) demo_stored_world).
  right. cbn. lia.
Defined.

(** X20. The first acknowledgement wins: once an alert that was pending or
    sent has been acknowledged, a second acknowledgement, by anyone, is
    refused with the error 'Statut invalide' and changes nothing; the alert
    keeps the user and the time of the first one. *)
Theorem acknowledge_is_first_writer_wins E first second alert_id w alert :
  get_alert w alert_id = Some alert →
  acknowledgeable alert = true →
  ∃ w1,
    acknowledge_alert E first alert_id w = (Ok (Json200 "acknowledged"), w1) ∧
    get_alert w1 alert_id = Some (set_acknowledged (clock E (clock_reads w)) first alert) ∧
    acknowledge_alert E second alert_id w1 = (Ok (Json400 "Statut invalide"), w1).
Proof.
  intros Hget Hack. eexists. split; [|split].
  - rewrite (acknowledge_alert_eq _ _ _ _ _ Hget), Hack. reflexivity.
  - by eapply get_alert_saved.
  - erewrite acknowledge_alert_eq by (by eapply get_alert_saved). done.
Qed.

Lemma acknowledge_is_first_writer_wins_witness :
  ∃ w1,
    acknowledge_alert (demo_env 7 (demo_response 200) (λ _, true)) 1 1 demo_stored_world
    = (Ok (Json200 "acknowledged"), w1) ∧
    get_alert w1 1 = Some (set_acknowledged 7 1 demo_stored_alert) ∧
    acknowledge_alert (demo_env 7 (demo_response 200) (λ _, true)) 2 1 w1
    = (Ok (Json400 "Statut invalide"), w1).
Proof.
  apply (acknowledge_is_first_writer_wins (demo_env 7 (demo_response 200) (λ _, true))
           1 2 1 demo_stored_world demo_stored_alert); reflexivity.
Defined.

(** X21. Acknowledging and then resolving compose: an alert that is pending
    or sent, acknowledged by one user and then resolved by another with a
    request without notes, ends resolved, holds who acknowledged it and when
    (the first reading of the clock) beside who resolved it and when (the
    next reading), and is otherwise the alert it was; it can no longer be
    acknowledged. *)
Theorem acknowledge_then_resolve E first second alert_id w alert d :
  get_alert w alert_id = Some alert →
  acknowledgeable alert = true →
  d !! "notes" = None →
  ∃ w1 w2,
    acknowledge_alert E first alert_id w = (Ok (Json200 "acknowledged"), w1) ∧
    resolve_alert E second alert_id (Some (JDict d)) w1 = (Ok (Json200 "resolved"), w2) ∧
    get_alert w2 alert_id
    = Some {| detection_event := detection_event alert; alert_rule := alert_rule alert;
              title := title alert; message := message alert; priority := priority alert;
              status := "resolved"; created_at := created_at alert;
              sent_at := sent_at alert;
              acknowledged_at := Some (clock E (clock_reads w));
              acknowledged_by := Some first;
              resolved_at := Some (clock E (S (clock_reads w)));
              resolved_by := Some second;
              metadata := metadata alert |} ∧
    acknowledge_alert E first alert_id w2 = (Ok (Json400 "Statut invalide"), w2).
Proof.
  intros Hget Hack Hnotes.
  set (a1 := set_acknowledged (clock E (clock_reads w)) first alert).
  set (w1 := with_alerts (<[pred alert_id := a1]> (alerts w)) (tick w)).
  assert (get_alert w1 alert_id = Some a1) as Hget1 by by eapply get_alert_saved.
  set (a2 := set_resolved (clock E (clock_reads w1)) second (metadata a1) a1).
  set (w2 := with_alerts (<[pred alert_id := a2]> (alerts w1)) (tick w1)).
  assert (get_alert w2 alert_id = Some a2) as Hget2 by by eapply get_alert_saved.
  exists w1, w2. split; [|split; [|split]].
  - by rewrite (acknowledge_alert_eq _ _ _ _ _ Hget), Hack.
  - rewrite (resolve_alert_run _ _ _ _ _ _ Hget1). cbn. by rewrite Hnotes.
  - exact Hget2.
  - by rewrite (acknowledge_alert_eq _ _ _ _ _ Hget2).
Qed.

Lemma acknowledge_then_resolve_witness :
  ∃ w1 w2,
    acknowledge_alert (demo_env 7 (demo_response 200) (λ _, true)) 1 1 demo_stored_world
    = (Ok (Json200 "acknowledged"), w1) ∧
    resolve_alert (demo_env 7 (demo_response 200) (λ _, true)) 2 1 (Some (JDict ∅)) w1
    = (Ok (Json200 "resolved"), w2) ∧
    (status <$> get_alert w2 1) = Some "resolved" ∧
    (acknowledged_by <$> get_alert w2 1) = Some (Some 1%nat) ∧
    (resolved_by <$> get_alert w2 1) = Some (Some 2%nat).
Proof.
  destruct (acknowledge_then_resolve (demo_env 7 (demo_response 200) (λ _, true))
              1 2 1 demo_stored_world demo_stored_alert ∅)
    as (w1 & w2 & Hack & Hres & Hget & _); [reflexivity..|].
  exists w1, w2. rewrite Hget. repeat split; assumption.
Defined.

(** X22. The notes of a resolution are added to the metadata of the alert
    and nothing of the metadata is lost: for an alert whose metadata is an
    object, resolving with a notes value that is truthy stores it under
    [resolution_notes], replacing earlier notes, and keeps every other key;
    resolving with no notes, or with notes that are falsy (the empty string,
    say), leaves the metadata as it is. *)
Theorem resolution_notes_are_stored E user alert_id w alert d m :
  get_alert w alert_id = Some alert →
  metadata alert = JDict m →
  let notes := default (JStr "") (d !! "notes") in
  ∃ w' final m',
    resolve_alert E user alert_id (Some (JDict d)) w = (Ok (Json200 "resolved"), w') ∧
    get_alert w' alert_id = Some final ∧
    metadata final = JDict m' ∧
    (∀ key, key ≠ "resolution_notes" → m' !! key = m !! key) ∧
    m' !! "resolution_notes"
    = (if py_truthy notes then Some notes else m !! "resolution_notes").
Proof.
  intros Hget Hmeta notes.
  rewrite (resolve_alert_run _ _ _ _ _ _ Hget). cbn. fold notes.
  destruct (py_truthy notes) eqn:Htruthy.
  - unfold with_resolution_notes. rewrite Hmeta.
    destruct (negb (py_truthy (JDict m))) eqn:Hempty.
    + assert (m = ∅) as ->.
      { cbn in Hempty. apply negb_true_iff, negb_false_iff in Hempty.
        by apply bool_decide_eq_true in Hempty. }
      eexists _, _, _. split; [reflexivity|].
      split; [by eapply get_alert_saved|]. split; [reflexivity|]. split.
      * intros key Hkey. by rewrite lookup_singleton_ne.
      * by rewrite lookup_singleton_eq.
    + eexists _, _, _. split; [reflexivity|].
      split; [by eapply get_alert_saved|]. split; [reflexivity|]. split.
      * intros key Hkey. by rewrite lookup_insert_ne.
      * by rewrite lookup_insert_eq.
  - eexists _, _, m. split; [reflexivity|].
    split; [by eapply get_alert_saved|]. split; [exact Hmeta|]. done.
Qed.

Lemma resolution_notes_are_stored_witness :
  ∃ w' final m',
    resolve_alert (demo_env 7 (demo_response 200) (λ _, true)) 1 1
      (Some (JDict {[ "notes" := JStr "false alarm" ]})) demo_stored_world
    = (Ok (Json200 "resolved"), w') ∧
    get_alert w' 1 = Some final ∧
    metadata final = JDict m' ∧
    m' !! "severity" = Some (JStr "critical") ∧
    m' !! "resolution_notes" = Some (JStr "false alarm").
Proof.
  destruct (resolution_notes_are_stored (demo_env 7 (demo_response 200) (λ _, true))
              1 1 demo_stored_world demo_stored_alert
              {[ "notes" := JStr "false alarm" ]}
              (list_to_map
                 [("camera_id", json_of_Z 7); ("zone_id", json_of_Z 3);
                  ("confidence", JNum (9 # 10)); ("severity", JStr "critical")]))
    as (w' & final & m' & Hrun & Hget & Hmeta & Hkeep & Hnotes); [reflexivity..|].
  exists w', final, m'. split; [exact Hrun|]. split; [exact Hget|].
  split; [exact Hmeta|]. split.
  - rewrite Hkeep by done. reflexivity.
  - rewrite Hnotes. reflexivity.
Defined.

(** ** Switching a rule on and off ([toggle_rule]) *)

Lemma toggle_rule_eq rule_id w rule :
  rules w !! rule_id = Some rule →
  toggle_rule rule_id w
  = (Ok (Toggled (negb (rule_is_active rule))
                 (if negb (rule_is_active rule) then "activée" else "désactivée")),
     with_rules (<[rule_id := set_rule_is_active (negb (rule_is_active rule)) rule]>
                   (rules w)) w).
Proof. intros H. unfold toggle_rule. by rewrite bind_get_world, H. Qed.

(** The alerts a detection adds come from rules that were active at the
    location when the call started. *)
Lemma process_detection_created_rules E ev w o w' :
  process_detection E ev w = (o, w') →
  ∃ created,
    alerts w' = alerts w ++ created ∧
    Forall (λ a, ∃ rule, rules w !! alert_rule a = Some rule ∧
                         rule_location rule = camera_location ev ∧
                         rule_is_active rule = true) created.
Proof.
  unfold process_detection. rewrite bind_get_world. intros H.
  apply process_rules_created in H as (_ & fired & Hsub & _ & Ha).
  eexists. split; [exact Ha|].
  apply Forall_fmap, Forall_forall. intros [[k r] n] Hin. cbn.
  exists r. apply applicable_rules_spec.
  eapply elem_of_sublist; [|exact Hsub].
  apply list_elem_of_fmap. by exists ((k, r), n).
Qed.

(** X23. Switching a rule twice gives back the database as it was: the first
    [toggle_rule] answers with the negated [is_active] and changes nothing
    else of the rule (its conditions, cooldown and [last_triggered] stay),
    and the second restores the row and every table. An id that names no
    rule is answered with 404 and changes nothing. *)
Theorem toggle_rule_twice_restores rule_id w :
  match rules w !! rule_id with
  | Some rule =>
      ∃ w1,
        toggle_rule rule_id w
        = (Ok (Toggled (negb (rule_is_active rule))
                       (if rule_is_active rule then "désactivée" else "activée")), w1) ∧
        rules w1 = <[rule_id := set_rule_is_active (negb (rule_is_active rule)) rule]> (rules w) ∧
        toggle_rule rule_id w1
        = (Ok (Toggled (rule_is_active rule)
                       (if rule_is_active rule then "activée" else "désactivée")), w)
  | None => toggle_rule rule_id w = (Ok RuleNotFound, w)
  end.
Proof.
  destruct (rules w !! rule_id) as [rule|] eqn:Hget; last first.
  { unfold toggle_rule. by rewrite bind_get_world, Hget. }
  exists (with_rules (<[rule_id := set_rule_is_active (negb (rule_is_active rule)) rule]>
                        (rules w)) w).
  split; [|split].
  - rewrite (toggle_rule_eq _ _ _ Hget). by destruct (rule_is_active rule).
  - reflexivity.
  - erewrite toggle_rule_eq by (cbn; apply lookup_insert_eq).
    cbn. rewrite negb_involutive. f_equal.
    unfold with_rules. cbn. rewrite insert_insert_eq.
    assert (set_rule_is_active (rule_is_active rule)
              (set_rule_is_active (negb (rule_is_active rule)) rule) = rule) as ->
      by by destruct rule.
    rewrite insert_id by done. by destruct w.
Qed.

(** X24. A rule that has been switched off is silent: after [toggle_rule]
    on an active rule, whatever detection is processed, and whether the
    processing returns or raises, no alert of that rule is added and the row
    of the rule, its [last_triggered] included, stays as the switch left
    it. *)
Theorem toggled_off_rule_is_silent rule_id w rule :
  rules w !! rule_id = Some rule →
  rule_is_active rule = true →
  ∃ w1,
    toggle_rule rule_id w = (Ok (Toggled false "désactivée"), w1) ∧
    ∀ E ev o w2,
      process_detection E ev w1 = (o, w2) →
      rules w2 !! rule_id = Some (set_rule_is_active false rule) ∧
      ∃ created, alerts w2 = alerts w1 ++ created ∧
                 Forall (λ a, alert_rule a ≠ rule_id) created.
Proof.
  intros Hget Hact. eexists. split.
  { rewrite (toggle_rule_eq _ _ _ Hget), Hact. reflexivity. }
  set (w1 := with_rules _ w). intros E ev o w2 Hrun.
  assert (rules w1 !! rule_id = Some (set_rule_is_active false rule)) as Hget1.
  { unfold w1. cbn. apply lookup_insert_eq. }
  destruct (process_detection_created_rules _ _ _ _ _ Hrun) as (created & Ha & Hfrom).
  assert (Forall (λ a, alert_rule a ≠ rule_id) created) as Hsilent.
  { eapply Forall_impl; [exact Hfrom|]. cbn. intros a (r & Hr & _ & Hon) Heq.
    rewrite Heq in Hr. pose proof (eq_trans (eq_sym Hr) Hget1) as Hrr.
    injection Hrr as ->. discriminate Hon. }
  split; [|by exists created].
  unfold process_detection in Hrun. rewrite bind_get_world in Hrun.
  apply (process_rules_effect E ev (rules w1)) in Hrun
    as (created' & Ha' & _ & _ & _ & Hrules & _);
    [|apply applicable_rules_elem].
  assert (created' = created) as ->
    by exact (app_inv_head _ _ _ (eq_trans (eq_sym Ha') Ha)).
  destruct (Hrules rule_id) as [->|[_ Hin]]; [done|].
  apply list_elem_of_fmap in Hin as (a & Heq & Hin).
  by destruct (proj1 (Forall_forall _ _) Hsilent a Hin).
Qed.

Lemma toggled_off_rule_is_silent_witness :
  ∃ w1,
    toggle_rule 1 demo_one_rule_world = (Ok (Toggled false "désactivée"), w1) ∧
    ∀ E ev o w2,
      process_detection E ev w1 = (o, w2) →
      rules w2 !! 1%nat
      = Some (set_rule_is_active false
                (demo_rule "detection_type" demo_theft_conditions None)) ∧
      ∃ created, alerts w2 = alerts w1 ++ created ∧
                 Forall (λ a, alert_rule a ≠ 1%nat) created.
Proof.
  apply (toggled_off_rule_is_silent 1 demo_one_rule_world
           (demo_rule "detection_type" demo_theft_conditions None)); reflexivity.
Defined.

(** ** The broadcast that ends the fan-out *)

Lemma dispatch_each_broadcasts E alert user cs w o w' :
  for_each (λ channel, send_notification_via_channel E alert channel user) cs w = (o, w') →
  broadcasts w' = broadcasts w.
Proof.
  revert w. induction cs as [|c cs IH]; intros w; [by intros [= _ <-]|].
  rewrite for_each_cons. cbn beta. rewrite send_notification_via_channel_eq.
  intros H. apply IH in H as ->.
  unfold after_dispatch. by destruct (delivered E alert c user).
Qed.

Lemma notify_all_broadcasts E alert rs w o w' :
  for_each (notify_recipient E alert) rs w = (o, w') → broadcasts w' = broadcasts w.
Proof.
  revert w. induction rs as [|r rs IH]; intros w; [by intros [= _ <-]|].
  rewrite for_each_cons.
  destruct (notify_recipient E alert r w) as [[[]|e] w1] eqn:Hr;
    unfold notify_recipient in Hr; rewrite bind_get_world in Hr;
    apply dispatch_each_broadcasts in Hr.
  - intros H. apply IH in H. congruence.
  - intros [= _ <-]. done.
Qed.

(** X25. Once the recipients have been filtered, the alert is broadcast
    whatever became of the deliveries: [send_alert_notifications] returns
    normally and has published, after all the dispatches, [new_alert] to the
    group of the location, with sound for the priorities high and critical
    and with the popup for critical only, followed by the dashboard update.
    When the channel layer refuses a message, the messages from that one on
    are missing and the call still returns normally. *)
Theorem broadcast_ends_fanout E alert w filtered w1 :
  let location := camera_location (detection_event alert.2) in
  filter_recipients E alert.2 (recipients_of location w) w = (Ok filtered, w1) →
  ∃ w',
    send_alert_notifications E alert w = (Ok tt, w') ∧
    broadcasts w'
    = broadcasts w ++
      (if group_send E (AlertsOf location)
       then NewAlert location alert.1
              (bool_decide (priority alert.2 ∈ ["high"; "critical"]))
              (bool_decide (priority alert.2 = "critical"))
            :: (if group_send E Dashboard then [DashboardUpdate alert.1] else [])
       else []).
Proof.
  intros location Hf.
  destruct (notify_all E alert filtered w1) as (w2 & new & Hrun & _ & _).
  pose proof (notify_all_broadcasts _ _ _ _ _ _ Hrun) as Hb2.
  apply filter_recipients_world in Hf as Hw1. destruct Hw1 as [_ Hw1].
  assert (broadcasts w2 = broadcasts w) as Hb by (rewrite Hb2, Hw1; done).
  assert (String.eqb (priority alert.2) "high" || String.eqb (priority alert.2) "critical"
          = bool_decide (priority alert.2 ∈ ["high"; "critical"])) as Hsound.
  { destruct (String.eqb_spec (priority alert.2) "high") as [->|H1]; [done|].
    destruct (String.eqb_spec (priority alert.2) "critical") as [->|H2]; [done|].
    cbn. symmetry. apply bool_decide_eq_false_2.
    rewrite !elem_of_cons, elem_of_nil. tauto. }
  assert (String.eqb (priority alert.2) "critical"
          = bool_decide (priority alert.2 = "critical")) as Hpopup.
  { destruct (String.eqb_spec (priority alert.2) "critical") as [->|H2]; [done|].
    symmetry. by apply bool_decide_eq_false_2. }
  unfold send_alert_notifications. rewrite bind_get_world.
  fold location. rewrite (bind_ok _ _ _ _ _ Hf), (bind_ok _ _ _ _ _ Hrun).
  unfold send_realtime_alert. fold location. cbn zeta. rewrite Hsound, Hpopup.
  destruct (group_send E (AlertsOf location)); [destruct (group_send E Dashboard)|];
    eexists; (split; [reflexivity|]); cbn; rewrite Hb; try done.
  - by rewrite <- app_assoc.
  - by rewrite app_nil_r.
Qed.

Lemma broadcast_ends_fanout_witness :
  ∃ w',
    send_alert_notifications (demo_env 7 (demo_response 503) (λ _, true))
      (1%nat, demo_alert "pending") demo_fanout_world = (Ok tt, w') ∧
    broadcasts w' = [NewAlert 1 1 true false; DashboardUpdate 1].
Proof.
  destruct (broadcast_ends_fanout (demo_env 7 (demo_response 503) (λ _, true))
              (1%nat, demo_alert "pending") demo_fanout_world
              [demo_recipient demo_chief (JList [])] demo_fanout_world)
    as (w' & Hrun & Hb); [reflexivity|].
  exists w'. split; [exact Hrun|]. rewrite Hb. reflexivity.
Defined.

(** ** Restrictions with one bound, or with a bound that cannot be read *)

Lemma is_within_time_restrictions_at E d w :
  d ≠ ∅ →
  is_within_time_restrictions E (JDict d) w
  = (within_restrictions_at E (clock E (clock_reads w)) (JDict d), tick w).
Proof.
  intros Hne. unfold is_within_time_restrictions. cbn.
  rewrite bool_decide_eq_false_2 by done. reflexivity.
Qed.

Lemma within_restrictions_day_allowed E now d :
  day_allowed now d →
  within_restrictions_at E now (JDict d)
  = (start_time ← py_get (JDict d) "start_time" JNull;
     end_time ← py_get (JDict d) "end_time" JNull;
     if py_truthy start_time && py_truthy end_time then
       start ← as_time E start_time;
       end_ ← as_time E end_time;
       match start, end_ with
       | Some s, Some e =>
           if Z.leb s e
           then Ok (Z.leb s (time_of now) && Z.leb (time_of now) e)
           else Ok (Z.leb s (time_of now) || Z.leb (time_of now) e)
       | _, _ => Raise TypeError
       end
     else Ok true).
Proof.
  intros Hday. unfold within_restrictions_at, day_allowed in *. cbn.
  destruct (d !! "allowed_days") as [days|]; cbn.
  - destruct Hday as [Hf|Hin].
    + by rewrite Hf.
    + destruct (py_truthy days); cbn; [rewrite Hin; cbn|]; done.
  - done.
Qed.

(** X26. A time window needs both bounds: on a day the allow-list lets
    through, restrictions that are not empty but hold only a [start_time], or
    only an [end_time] (the other missing, null or empty), restrict nothing;
    the check passes at every hour, after one reading of the clock. *)
Theorem one_sided_window_is_ignored E w d :
  d ≠ ∅ →
  day_allowed (clock E (clock_reads w)) d →
  py_truthy (default JNull (d !! "start_time"))
  && py_truthy (default JNull (d !! "end_time")) = false →
  is_within_time_restrictions E (JDict d) w = (Ok true, tick w).
Proof.
  intros Hne Hday Hone.
  rewrite (is_within_time_restrictions_at _ _ _ Hne).
  rewrite (within_restrictions_day_allowed _ _ _ Hday). cbn.
  by rewrite Hone.
Qed.

Lemma one_sided_window_is_ignored_witness :
  is_within_time_restrictions (demo_env (hm 12 0) (demo_response 200) (λ _, true))
    (JDict {[ "start_time" := JStr "22:00" ]}) demo_world
  = (Ok true, tick demo_world).
Proof.
  apply one_sided_window_is_ignored; [|done|reflexivity].
  intros H. apply (f_equal (λ m : gmap string json, m !! "start_time")) in H.
  rewrite lookup_singleton_eq, lookup_empty in H. discriminate H.
Defined.

(** X27. A bound that cannot be read is an error, not a refusal: on a day
    the allow-list lets through, when both bounds are set and [start_time] is
    a string that [time.fromisoformat] rejects, the check raises that
    exception instead of answering. *)
Theorem unreadable_start_time_raises E w d s err :
  day_allowed (clock E (clock_reads w)) d →
  d !! "start_time" = Some (JStr s) → s ≠ "" →
  py_truthy (default JNull (d !! "end_time")) = true →
  time_fromisoformat E s = Raise err →
  is_within_time_restrictions E (JDict d) w = (Raise err, tick w).
Proof.
  intros Hday Hs Hsne Hend Hbad.
  assert (d ≠ ∅) as Hne.
  { intros ->. by rewrite lookup_empty in Hs. }
  rewrite (is_within_time_restrictions_at _ _ _ Hne).
  rewrite (within_restrictions_day_allowed _ _ _ Hday). cbn.
  rewrite Hs, Hend. cbn.
  destruct (String.eqb_spec s "") as [->|_]; [done|]. cbn.
  by rewrite Hbad.
Qed.

Lemma unreadable_start_time_raises_witness :
  is_within_time_restrictions (demo_env (hm 12 0) (demo_response 200) (λ _, true))
    (JDict {[ "start_time" := JStr "25:00"; "end_time" := JStr "06:00" ]}) demo_world
  = (Raise ValueError, tick demo_world).
Proof.
  apply (unreadable_start_time_raises _ _ _ "25:00"); try reflexivity; done.
Defined.
